(** * Crop-planning optimizer: plan evaluation, generation and local search

    A shallow embedding of [optimization.py] ([CropOptimizer]) and of the
    [SolutionValidator] of [utils.py].

    Conventions of the embedding.
    - Python [float] quantities (areas, yields, costs, prices, fitness) are
      exact rationals [Q]; sums are therefore insensitive to the order in
      which a dictionary is traversed.  Integer penalties are [Z].
    - A Python [dict] whose order matters is an association list in
      insertion order ([dict_get] / [dict_set]); a genuine dictionary has
      pairwise distinct keys.
    - [KeyError], [IndexError] and [ValueError] are [None].
    - The [random] module is an oracle: a tape of naturals consumed one draw
      at a time. *)

From Stdlib Require Import QArith Lqa.
From stdpp Require Import gmap strings list fin_maps.

Local Open Scope Z_scope.
Set Warnings "-clear-no-such-hyp".

(** ** Insertion-ordered dictionaries *)

Section Dict.
Context {K V : Type} `{EqDecision K}.

(** [d[k]], [None] standing for [KeyError]. *)
Fixpoint dict_get (k : K) (d : list (K * V)) : option V :=
  match d with
  | [] => None
  | (k', v) :: rest => if decide (k = k') then Some v else dict_get k rest
  end.

(** [d[k] = v]: overwrite in place, or append a new key. *)
Fixpoint dict_set (k : K) (v : V) (d : list (K * V)) : list (K * V) :=
  match d with
  | [] => [(k, v)]
  | (k', v') :: rest =>
      if decide (k = k') then (k, v) :: rest else (k', v') :: dict_set k v rest
  end.

(** [k in d]. *)
Definition dict_mem (k : K) (d : list (K * V)) : bool :=
  match dict_get k d with Some _ => true | None => false end.

Definition dict_keys (d : list (K * V)) : list K := d.*1.

End Dict.

(** ** Data model *)

(** The six land types the code dispatches on; any other tag found in the
    sheet falls through every branch. *)
Inductive land_type :=
  | FlatDry | Terrace | Hillside | Irrigated | Greenhouse | SmartGreenhouse
  | OtherLand (tag : string).

Inductive season := Single | First | Second.

#[global] Instance land_type_eq_dec : EqDecision land_type.
Proof. solve_decision. Defined.
#[global] Instance season_eq_dec : EqDecision season.
Proof. solve_decision. Defined.

(** [land_info[land]] *)
Record land := { l_type : land_type; l_area : Q }.

(** [crop_info[crop_id]]; the category tag and the land description are the
    sheet's free text. *)
Record crop := { c_name : string; c_type : string; c_suitable_land : string }.

(** [stats_info[(crop_id, land_type, season)]] *)
Record stats := {
  yield_per_mu : Q;
  cost_per_mu : Q;
  min_price : Q;
  max_price : Q
}.

(** One planted cell, [solution[land][year][season]]. *)
Record cell := { crop_id : nat; crop_name : string; area : Q }.

(** [solution[land][year]]: a dictionary over the three season labels. *)
Record season_cells := {
  s_single : option cell;
  s_first : option cell;
  s_second : option cell
}.

Definition no_cells : season_cells :=
  {| s_single := None; s_first := None; s_second := None |}.

Definition season_get (s : season) (sc : season_cells) : option cell :=
  match s with
  | Single => s_single sc
  | First => s_first sc
  | Second => s_second sc
  end.

Definition season_set (s : season) (c : cell) (sc : season_cells) : season_cells :=
  match s with
  | Single => {| s_single := Some c; s_first := s_first sc; s_second := s_second sc |}
  | First => {| s_single := s_single sc; s_first := Some c; s_second := s_second sc |}
  | Second => {| s_single := s_single sc; s_first := s_first sc; s_second := Some c |}
  end.

(** [['单季', '第一季', '第二季']] *)
Definition all_seasons : list season := [Single; First; Second].

(** [solution[land]] and [solution]. *)
Abbreviation yearmap := (list (nat * season_cells)).
Abbreviation plan := (list (string * yearmap)).

(** What [preprocess_data] hands to the optimizer. *)
Record dataset := {
  land_info : list (string * land);
  crop_info : list (nat * crop);
  stats_info : list ((nat * land_type * season) * stats);
  expected_sales : list (nat * Q)
}.

(** ** Category tags *)

(** Python's [needle in hay] on strings. *)
Fixpoint contains (needle hay : string) : bool :=
  String.prefix needle hay ||
  match hay with
  | EmptyString => false
  | String _ rest => contains needle rest
  end.

Definition legume_marker : string := "豆类".
Definition grain_marker : string := "粮食".
Definition vegetable_tag : string := "蔬菜".
Definition grain_legume_tag : string := "粮食（豆类）".
Definition vegetable_legume_tag : string := "蔬菜（豆类）".
Definition rice_name : string := "水稻".

(** [self.bean_crops] *)
Definition bean_crops (ds : dataset) : list nat :=
  (filter (λ p, contains legume_marker (c_type p.2) = true) (crop_info ds)).*1.

(** ** Fitness *)

Definition Qltb (a b : Q) : bool := negb (Qle_bool b a).

(** [min(a, b)] and [max(a, b)] of Python: the first argument wins a tie. *)
Definition py_min (a b : Q) : Q := if Qltb b a then b else a.
Definition py_max (a b : Q) : Q := if Qltb a b then b else a.

Definition shortage : Z := 1.
Definition markdown : Z := 2.

Definition mean_price (st : stats) : Q := ((min_price st + max_price st) / 2)%Q.

(** The revenue of one costable cell. *)
Definition cell_revenue (ds : dataset) (scenario : Z) (c : cell) (st : stats) : Q :=
  let price := mean_price st in
  let total_yield := (yield_per_mu st * area c)%Q in
  match dict_get (crop_id c) (expected_sales ds) with
  | Some expected =>
      if decide (scenario = 1) then (py_min total_yield expected * price)%Q
      else (py_min total_yield expected * price
            + py_max 0 (total_yield - expected) * price * (1 # 2))%Q
  | None => (total_yield * price)%Q
  end.

(** The contribution of one cell to [total_profit]; a missing statistics
    key is skipped. *)
Definition cell_profit (ds : dataset) (scenario : Z) (lt : land_type)
    (s : season) (c : cell) : Q :=
  match dict_get (crop_id c, lt, s) (stats_info ds) with
  | None => 0%Q
  | Some st => (cell_revenue ds scenario c st - cost_per_mu st * area c)%Q
  end.

Definition sum_Q (l : list Q) : Q := foldr Qplus 0%Q l.
Definition sum_Z (l : list Z) : Z := foldr Z.add 0 l.

(** The cells present in one year, with their season labels. *)
Definition year_cells (sc : season_cells) : list (season * cell) :=
  omap (λ s, c ← season_get s sc; Some (s, c)) all_seasons.

(** [for year in solution[land]: for season in solution[land][year]] *)
Definition plot_cells (ym : yearmap) : list (season * cell) :=
  ym ≫= (λ p, year_cells p.2).

(** A sum over every cell of a plan; [self.land_info[land]] may raise. *)
Definition plot_sum (f : season → cell → Q) (ym : yearmap) : Q :=
  sum_Q ((λ p, f p.1 p.2) <$> plot_cells ym).

Fixpoint plan_sum (ds : dataset) (f : land_type → season → cell → Q)
    (sol : plan) : option Q :=
  match sol with
  | [] => Some 0%Q
  | (land, ym) :: rest =>
      info ← dict_get land (land_info ds);
      others ← plan_sum ds f rest;
      Some (plot_sum (f (l_type info)) ym + others)%Q
  end.

(** [total_profit] as the loop of [_calculate_fitness] accumulates it. *)
Definition total_profit (ds : dataset) (scenario : Z) (sol : plan) : option Q :=
  plan_sum ds (cell_profit ds scenario) sol.

(** The revenue part of the same loop: what a cell earns before its cost
    is subtracted, nothing for a cell without statistics. *)
Definition cell_income (ds : dataset) (scenario : Z) (lt : land_type)
    (s : season) (c : cell) : Q :=
  match dict_get (crop_id c, lt, s) (stats_info ds) with
  | None => 0%Q
  | Some st => cell_revenue ds scenario c st
  end.

Definition total_revenue (ds : dataset) (scenario : Z) (sol : plan) : option Q :=
  plan_sum ds (cell_income ds scenario) sol.

(** ** Constraint penalties *)

(** [if year in crops and season in crops[year]] *)
Definition cell_at (ym : yearmap) (year : nat) (s : season) : option cell :=
  sc ← dict_get year ym; season_get s sc.

(** The cells met by
    [for year in range(n): for season in ['单季', '第一季', '第二季']]. *)
Definition cells_in_order (ym : yearmap) (n : nat) : list cell :=
  seq 0 n ≫= (λ year, omap (cell_at ym year) all_seasons).

(** Rule 1: the scan that sets [bean_planted]. *)
Definition bean_planted (ds : dataset) (ym : yearmap) : bool :=
  existsb (λ c, bool_decide (crop_id c ∈ bean_crops ds))
    (cells_in_order ym (length ym)).

Definition rotation_penalty (ds : dataset) (sol : plan) : Z :=
  sum_Z ((λ p, if bean_planted ds p.2 then 0 else 100000) <$> sol).

(** Rule 2: [prev_crop] threaded through one plot's cells. *)
Fixpoint replant_scan (prev : option nat) (cells : list cell) : Z :=
  match cells with
  | [] => 0
  | c :: rest =>
      (if decide (Some (crop_id c) = prev) then 50000 else 0)
      + replant_scan (Some (crop_id c)) rest
  end.

Definition replant_penalty (sol : plan) : Z :=
  sum_Z ((λ p, replant_scan None (cells_in_order p.2 (length p.2))) <$> sol).

(** Rule 3: [crop_distribution], crop id to the set of plots growing it. *)
Definition dist_add (d : gmap nat (gset string)) (c : nat) (l : string) :
    gmap nat (gset string) :=
  <[c := {[l]} ∪ default ∅ (d !! c)]> d.

Definition crop_distribution (entries : list (nat * string)) :
    gmap nat (gset string) :=
  foldl (λ d e, dist_add d e.1 e.2) ∅ entries.

(** The (crop, plot) pairs of one (year, season) stratum. *)
Definition stratum_entries (sol : plan) (year : nat) (s : season) :
    list (nat * string) :=
  omap (λ p, c ← cell_at p.2 year s; Some (crop_id c, p.1)) sol.

Definition stratum (sol : plan) (year : nat) (s : season) :
    gmap nat (gset string) :=
  crop_distribution (stratum_entries sol year s).

(** The charge for a crop grown on [n] plots of a stratum. *)
Definition conc_term (n : nat) : Z :=
  if decide (n < 2)%nat then 50000 * (2 - Z.of_nat n)
  else if decide (8 < n)%nat then 30000 * (Z.of_nat n - 8)
  else 0.

Definition stratum_penalty (sol : plan) (year : nat) (s : season) : Z :=
  map_fold (λ _ lands acc, acc + conc_term (size lands)) 0 (stratum sol year s).

(** The strata are the years of the first plot; a plan without plots has no
    first plot ([IndexError]). *)
Definition concentration_penalty (sol : plan) : option Z :=
  match sol with
  | [] => None
  | (_, ym0) :: _ =>
      Some (sum_Z (seq 0 (length ym0) ≫=
                     (λ year, stratum_penalty sol year <$> all_seasons)))
  end.

(** Rule 4. *)
Definition min_area_term (c : cell) : Q :=
  if Qltb (area c) (1 # 2) then (20000 * ((1 # 2) - area c))%Q else 0%Q.

Definition min_area_penalty (sol : plan) : Q :=
  sum_Q ((λ p, min_area_term p.2) <$> (sol ≫= (λ p, plot_cells p.2))).

(** [_calculate_constraint_penalty] *)
Definition _calculate_constraint_penalty (ds : dataset) (sol : plan) : option Q :=
  conc ← concentration_penalty sol;
  Some (inject_Z (rotation_penalty ds sol + replant_penalty sol + conc)
        + min_area_penalty sol)%Q.

(** [_calculate_fitness] *)
Definition _calculate_fitness (ds : dataset) (sol : plan) (scenario : Z) :
    option Q :=
  profit ← total_profit ds scenario sol;
  penalty ← _calculate_constraint_penalty ds sol;
  Some (profit - penalty)%Q.

(** ** Solution validator ([utils.py]) *)

(** The validator recognises a legume by its exact category tag. *)
Definition validator_bean (info : crop) : bool :=
  bool_decide (c_type info ∈ [grain_legume_tag; vegetable_legume_tag]).

(** One plot of [validate_rotation]: [Some true] when the scan breaks on a
    legume, [Some false] when it runs out of cells, [None] when
    [crop_info[crop_id]] raises. *)
Fixpoint rotation_scan (ci : list (nat * crop)) (cells : list cell) : option bool :=
  match cells with
  | [] => Some false
  | c :: rest =>
      info ← dict_get (crop_id c) ci;
      if validator_bean info then Some true else rotation_scan ci rest
  end.

Fixpoint validate_rotation (sol : plan) (ci : list (nat * crop)) (years : nat) :
    option bool :=
  match sol with
  | [] => Some true
  | (_, crops) :: rest =>
      found ← rotation_scan ci (cells_in_order crops years);
      if found : bool then validate_rotation rest ci years else Some false
  end.

(** The (crop, plot) pairs [validate_concentration] pools over all years
    and seasons. *)
Definition plan_entries (sol : plan) : list (nat * string) :=
  sol ≫= (λ p, (λ c, (crop_id c, p.1)) <$> cells_in_order p.2 (length p.2)).

Definition validate_concentration (sol : plan) (min_plots : nat) : bool :=
  bool_decide (map_Forall (λ _ (lands : gset string), ¬ (size lands < min_plots)%nat)
                 (crop_distribution (plan_entries sol))).

(** ** The random source *)

Definition tape := list nat.
Definition Rand (A : Type) : Type := tape → A * tape.

Definition rand_ret {A} (x : A) : Rand A := λ t, (x, t).
Definition rand_bind {A B} (m : Rand A) (k : A → Rand B) : Rand B :=
  λ t, let (x, t') := m t in k x t'.

Notation "x <~ m ;; k" := (rand_bind m (λ x, k))
  (at level 100, m at next level, right associativity).

Definition draw : Rand nat :=
  λ t, match t with [] => (0%nat, []) | r :: t' => (r, t') end.

(** [random.choice] on the non-empty list [x :: xs]. *)
Definition choice {A} (x : A) (xs : list A) : Rand A :=
  r <~ draw ;; rand_ret (nth (r mod S (length xs)) (x :: xs) x).

(** [random.random() < 0.5] *)
Definition coin : Rand bool :=
  r <~ draw ;; rand_ret (bool_decide (r mod 2 = 0)%nat).

(** [random.randint(0, n - 1)]; an empty range is a [ValueError]. *)
Definition randint_below (n : nat) : Rand (option nat) :=
  match n with
  | O => rand_ret None
  | S _ => r <~ draw ;; rand_ret (Some (r mod n)%nat)
  end.

(** [random.sample(l, k)]: [k] draws without replacement. *)
Fixpoint sample {A} (l : list A) (k : nat) : Rand (list A) :=
  match k with
  | O => rand_ret []
  | S k' =>
      r <~ draw ;;
      match l !! (r mod length l)%nat with
      | None => rand_ret []
      | Some x => rest <~ sample (delete (r mod length l)%nat l) k' ;; rand_ret (x :: rest)
      end
  end.

(** ** Constructive generator *)

Definition crop_type_of (ci : list (nat * crop)) (c : nat) : string :=
  match dict_get c ci with Some info => c_type info | None => EmptyString end.

Definition crop_name_of (ci : list (nat * crop)) (c : nat) : string :=
  match dict_get c ci with Some info => c_name info | None => EmptyString end.

Definition root_set : list nat := [37; 38; 39]%nat.

(** [range(40, 44)] *)
Definition fungus_set : list nat := seq 40 4.

(** The four candidate lists; each comprehension ranges over the keys of
    [crop_info] (or over a fixed id list) and looks the crop up. *)
Definition grain_crops (ci : list (nat * crop)) : list nat :=
  filter (λ c, contains grain_marker (crop_type_of ci c) = true) (dict_keys ci).

Definition veg_crops (ci : list (nat * crop)) : list nat :=
  filter (λ c, crop_type_of ci c = vegetable_tag ∧ c ∉ root_set) (dict_keys ci).

Definition second_crops (ci : list (nat * crop)) : list nat :=
  filter (λ c, dict_mem c ci = true) root_set.

Definition mushroom_crops (ci : list (nat * crop)) : list nat :=
  filter (λ c, dict_mem c ci = true) fungus_set.

Definition mk_cell (ci : list (nat * crop)) (c : nat) (a : Q) : cell :=
  {| crop_id := c; crop_name := crop_name_of ci c; area := a |}.

(** [if candidates: crop_id = random.choice(candidates); ...[season] = {...}] *)
Definition plant (ci : list (nat * crop)) (s : season) (candidates : list nat)
    (a : Q) (sc : season_cells) : Rand season_cells :=
  match candidates with
  | [] => rand_ret sc
  | x :: xs => c <~ choice x xs ;; rand_ret (season_set s (mk_cell ci c a) sc)
  end.

Definition rice_cell (a : Q) : cell :=
  {| crop_id := 18; crop_name := rice_name; area := a |}.

(** The land-type rule that fills one plot-year, starting from the empty
    dictionary; the generator and the local search carry the same text. *)
Definition regenerate (ci : list (nat * crop)) (lt : land_type) (a : Q) :
    Rand season_cells :=
  match lt with
  | FlatDry | Terrace | Hillside => plant ci Single (grain_crops ci) a no_cells
  | Irrigated =>
      rice <~ coin ;;
      if rice : bool then rand_ret (season_set Single (rice_cell a) no_cells)
      else sc <~ plant ci First (veg_crops ci) a no_cells ;;
           plant ci Second (second_crops ci) a sc
  | Greenhouse =>
      sc <~ plant ci First (veg_crops ci) a no_cells ;;
      plant ci Second (mushroom_crops ci) a sc
  | SmartGreenhouse =>
      sc <~ plant ci First (veg_crops ci) a no_cells ;;
      plant ci Second (veg_crops ci) a sc
  | OtherLand _ => rand_ret no_cells
  end.

(** [for year in range(years)] of one plot. *)
Fixpoint gen_years (ci : list (nat * crop)) (lt : land_type) (a : Q)
    (years : list nat) (ym : yearmap) : Rand yearmap :=
  match years with
  | [] => rand_ret ym
  | year :: later =>
      sc <~ regenerate ci lt a ;;
      gen_years ci lt a later (dict_set year sc ym)
  end.

(** [for land in self.land_info]; the lookup of a key being iterated
    cannot fail. *)
Fixpoint gen_lands (ds : dataset) (years : nat) (lands : list string)
    (solution : plan) : Rand plan :=
  match lands with
  | [] => rand_ret solution
  | land :: later =>
      match dict_get land (land_info ds) with
      | None => gen_lands ds years later solution
      | Some info =>
          ym <~ gen_years (crop_info ds) (l_type info) (l_area info) (seq 0 years) [] ;;
          gen_lands ds years later (dict_set land ym solution)
      end
  end.

Definition _generate_initial_solution (ds : dataset) (years : nat) : Rand plan :=
  gen_lands ds years (dict_keys (land_info ds)) [].

(** ** Local search over shared dictionaries *)

(** The inner dictionaries [solution[land]] are objects in a store; an outer
    dictionary holds references to them.  [dict.copy()] copies the outer
    dictionary only, so the copy refers to the same inner objects.  An
    address is an index into the store. *)
Abbreviation heap := (list yearmap).
Abbreviation pyplan := (list (string * nat)).

Definition shallow_copy (p : pyplan) : pyplan := p.

(** The plan an outer dictionary currently denotes. *)
Definition deref (h : heap) (p : pyplan) : option plan :=
  mapM (λ e, ym ← h !! e.2; Some (e.1, ym)) p.

(** A plan laid out in a fresh store, one object per plot. *)
Definition store_plan (sol : plan) : heap * pyplan :=
  (sol.*2, zip sol.*1 (seq 0 (length sol))).

Record search_state := {
  ss_heap : heap;
  ss_tape : tape;
  best_solution : pyplan;
  best_fitness : Q;
  improved : bool
}.

(** One trial of the inner [for land in lands_to_modify] loop. *)
Definition try_land (ds : dataset) (scenario : Z) (land : string)
    (st : search_state) : option search_state :=
  a ← dict_get land (best_solution st);
  ym ← ss_heap st !! a;
  let (oyear, t1) := randint_below (length ym) (ss_tape st) in
  year ← oyear;
  let test_solution := shallow_copy (best_solution st) in
  info ← dict_get land (land_info ds);
  a' ← dict_get land test_solution;
  ym' ← ss_heap st !! a';
  let (sc, t2) := regenerate (crop_info ds) (l_type info) (l_area info) t1 in
  let h' := <[a' := dict_set year sc ym']> (ss_heap st) in
  candidate ← deref h' test_solution;
  new_fitness ← _calculate_fitness ds candidate scenario;
  if Qltb (best_fitness st) new_fitness then
    Some {| ss_heap := h'; ss_tape := t2; best_solution := test_solution;
            best_fitness := new_fitness; improved := true |}
  else
    Some {| ss_heap := h'; ss_tape := t2; best_solution := best_solution st;
            best_fitness := best_fitness st; improved := improved st |}.

(** The [for] loop; an accepted trial breaks out of it. *)
Fixpoint try_lands (ds : dataset) (scenario : Z) (lands : list string)
    (st : search_state) : option search_state :=
  match lands with
  | [] => Some st
  | land :: later =>
      st' ← try_land ds scenario land st;
      if improved st' then Some st' else try_lands ds scenario later st'
  end.

(** [while improved and iterations < max_iterations]; [fuel] is the number
    of passes still allowed. *)
Fixpoint search_loop (ds : dataset) (scenario : Z) (fuel : nat)
    (st : search_state) : option search_state :=
  match fuel with
  | O => Some st
  | S fuel' =>
      if improved st then
        let (lands, t') :=
          sample (dict_keys (best_solution st))
                 (min 5 (length (best_solution st))) (ss_tape st) in
        st' ← try_lands ds scenario lands
                {| ss_heap := ss_heap st; ss_tape := t';
                   best_solution := best_solution st;
                   best_fitness := best_fitness st; improved := false |};
        search_loop ds scenario fuel' st'
      else Some st
  end.

(** The local search with its pass cap as a parameter; it returns the
    final store and the outer dictionary it hands back. *)
Definition local_search (max_iterations : nat) (ds : dataset) (h : heap)
    (solution : pyplan) (scenario : Z) (t : tape) : option (heap * pyplan) :=
  let best := shallow_copy solution in
  start ← deref h best;
  fit ← _calculate_fitness ds start scenario;
  st ← search_loop ds scenario max_iterations
         {| ss_heap := h; ss_tape := t; best_solution := best;
            best_fitness := fit; improved := true |};
  Some (ss_heap st, best_solution st).

(** [_simple_local_search]: [max_iterations = 100]. *)
Definition _simple_local_search := local_search 100.

(** The fitness of the plan an outer dictionary denotes in a store. *)
Definition fitness_in (ds : dataset) (h : heap) (p : pyplan) (scenario : Z) :
    option Q :=
  sol ← deref h p; _calculate_fitness ds sol scenario.

(** ** The remaining validators ([utils.py]) *)

(** One plot of [validate_no_replant]: [False] at the first cell that
    repeats the crop of the cell before it. *)
Fixpoint no_replant_scan (prev : option nat) (cells : list cell) : bool :=
  match cells with
  | [] => true
  | c :: rest =>
      if decide (Some (crop_id c) = prev) then false
      else no_replant_scan (Some (crop_id c)) rest
  end.

Definition validate_no_replant (sol : plan) : bool :=
  forallb (λ p, no_replant_scan None (cells_in_order p.2 (length p.2))) sol.

Definition validate_min_area (sol : plan) (min_area : Q) : bool :=
  forallb (λ p, forallb (λ c, negb (Qltb (area c) min_area))
                  (cells_in_order p.2 (length p.2))) sol.

(** ** Classification at construction ([CropOptimizer.__init__]) *)

(** [self.non_bean_crops] *)
Definition non_bean_crops (ds : dataset) : list nat :=
  (filter (λ p, contains legume_marker (c_type p.2) ≠ true) (crop_info ds)).*1.

(** ** Multi-start and the top-level entry *)

(** The loop [for i in range(10)] of [_simple_optimize]; [None] is the
    initial [best_solution = None], [best_fitness = -inf]. *)
Fixpoint multi_start (ds : dataset) (scenario : Z) (years : nat) (n : nat)
    (best : option (plan * Q)) (t : tape) : option (option (plan * Q) * tape) :=
  match n with
  | O => Some (best, t)
  | S n' =>
      let (solution, t') := _generate_initial_solution ds years t in
      fitness ← _calculate_fitness ds solution scenario;
      let best' :=
        match best with
        | None => Some (solution, fitness)
        | Some (_, best_fitness) =>
            if Qltb best_fitness fitness then Some (solution, fitness) else best
        end in
      multi_start ds scenario years n' best' t'
  end.

(** [_simple_optimize]: the best of ten candidates, laid out in a store
    and refined by the local search. *)
Definition _simple_optimize (ds : dataset) (scenario : Z) (years : nat)
    (t : tape) : option (heap * pyplan) :=
  r ← multi_start ds scenario years 10 None t;
  match r.1 with
  | None => None
  | Some (best, _) =>
      _simple_local_search ds (store_plan best).1 (store_plan best).2 scenario r.2
  end.

(** [optimize]: the four validators only print warnings, but
    [validate_rotation] may raise; the value is the plan the returned
    dictionary denotes. *)
Definition optimize (ds : dataset) (scenario : Z) (years : nat) (t : tape) :
    option plan :=
  r ← _simple_optimize ds scenario years t;
  solution ← deref r.1 r.2;
  _ ← validate_rotation solution (crop_info ds) years;
  Some solution.

(** ** Expected sales ([DataLoader.preprocess_data]) *)

(** One row of the 2023 planting sheet, [planting_2023[land][i]]. *)
Record planting := {
  p_crop_id : nat;
  p_crop_name : string;
  p_crop_type : string;
  p_area : Q;
  p_season : season
}.

(** The body of [for crop in crops]: a row without statistics is skipped,
    otherwise its yield opens or extends the crop's entry. *)
Definition record_sale (li : list (string * land))
    (si : list ((nat * land_type * season) * stats)) (land_name : string)
    (row : planting) (expected : list (nat * Q)) : option (list (nat * Q)) :=
  info ← dict_get land_name li;
  match dict_get (p_crop_id row, l_type info, p_season row) si with
  | None => Some expected
  | Some st =>
      let total_yield := (yield_per_mu st * p_area row)%Q in
      match dict_get (p_crop_id row) expected with
      | None => Some (dict_set (p_crop_id row) total_yield expected)
      | Some sofar => Some (dict_set (p_crop_id row) (sofar + total_yield)%Q expected)
      end
  end.

Fixpoint record_sales (li : list (string * land))
    (si : list ((nat * land_type * season) * stats)) (land_name : string)
    (rows : list planting) (expected : list (nat * Q)) : option (list (nat * Q)) :=
  match rows with
  | [] => Some expected
  | row :: later =>
      expected' ← record_sale li si land_name row expected;
      record_sales li si land_name later expected'
  end.

(** [for land, crops in planting_2023.items()] *)
Fixpoint expected_sales_from (li : list (string * land))
    (si : list ((nat * land_type * season) * stats))
    (planting_2023 : list (string * list planting)) (expected : list (nat * Q)) :
    option (list (nat * Q)) :=
  match planting_2023 with
  | [] => Some expected
  | (land_name, rows) :: later =>
      expected' ← record_sales li si land_name rows expected;
      expected_sales_from li si later expected'
  end.

Definition expected_sales_of (li : list (string * land))
    (si : list ((nat * land_type * season) * stats))
    (planting_2023 : list (string * list planting)) : option (list (nat * Q)) :=
  expected_sales_from li si planting_2023 [].

(** ** Plot divisions ([DataLoader.get_land_divisions]) *)






(** * Vocabulary of the properties *)

(** Every plot of the plan is a key of [land_info]. *)
Definition lands_known (ds : dataset) (sol : plan) : Prop :=
  Forall (λ p, is_Some (dict_get p.1 (land_info ds))) sol.

(** The price bounds carry no sign: [preprocess_data] obtains them as the
    pieces of [str(...).split('-')], which contain no minus. *)
Definition nonneg_prices (ds : dataset) : Prop :=
  Forall (λ e, (0 <= min_price e.2)%Q ∧ (0 <= max_price e.2)%Q) (stats_info ds).

(** The plots recorded for crop [c] in a distribution. *)
Definition lands_of (d : gmap nat (gset string)) (c : nat) : gset string :=
  default ∅ (d !! c).

Definition plots_nonempty (d : gmap nat (gset string)) : Prop :=
  map_Forall (λ _ (X : gset string), X ≠ ∅) d.

(** Plot [l] grows crop [c] in the stratum ([year], [s]). *)
Definition grows (sol : plan) (l : string) (year : nat) (s : season) (c : nat) : Prop :=
  ∃ ym cl, (l, ym) ∈ sol ∧ cell_at ym year s = Some cl ∧ crop_id cl = c.

(** The cell a plan holds for a plot, a year and a season. *)
Definition plan_cell (sol : plan) (l : string) (year : nat) (s : season) :
    option cell :=
  ym ← dict_get l sol; cell_at ym year s.

(** Every plot has [H] years ... *)
Definition uniform_horizon (H : nat) (sol : plan) : Prop :=
  Forall (λ p, length p.2 = H) sol.

(** ... and they are the years [0 .. H-1]. *)
Definition years_in_range (H : nat) (sol : plan) : Prop :=
  Forall (λ p, Forall (λ e, (e.1 < H)%nat) p.2) sol.

(** The crop set tags [c] with a category that contains the legume marker. *)
Definition legume (ds : dataset) (c : nat) : Prop :=
  ∃ info, (c, info) ∈ crop_info ds ∧ contains legume_marker (c_type info) = true.

(** A plot without a legume cell in any year or season. *)
Definition no_legume_cells (ds : dataset) (ym : yearmap) : Prop :=
  ∀ year s cl, cell_at ym year s = Some cl → ¬ legume ds (crop_id cl).

(** Every crop id a plan mentions is a key of the crop set. *)
Definition crops_known (ci : list (nat * crop)) (sol : plan) : Prop :=
  ∀ l ym year s cl,
    (l, ym) ∈ sol → cell_at ym year s = Some cl → is_Some (dict_get (crop_id cl) ci).

(** Which season labels a land type admits, and which crops its second
    season is restricted to. *)
Definition cells_legal (lt : land_type) (sc : season_cells) : Prop :=
  match lt with
  | FlatDry | Terrace | Hillside => s_first sc = None ∧ s_second sc = None
  | Irrigated =>
      (s_first sc = None ∧ s_second sc = None) ∨
      (s_single sc = None ∧ ∀ cl, s_second sc = Some cl → crop_id cl ∈ root_set)
  | Greenhouse =>
      s_single sc = None ∧ ∀ cl, s_second sc = Some cl → crop_id cl ∈ fungus_set
  | SmartGreenhouse => s_single sc = None
  | OtherLand _ => sc = no_cells
  end.

(** Every cell of the year covers the area [a]. *)
Definition full_area (a : Q) (sc : season_cells) : Prop :=
  ∀ s cl, season_get s sc = Some cl → area cl = a.

(** A plot of the data set whose every year is legal for its land type and
    planted on the plot's full area. *)
Definition plot_structural (ds : dataset) (p : string * yearmap) : Prop :=
  ∃ info, dict_get p.1 (land_info ds) = Some info ∧
    Forall (λ e, cells_legal (l_type info) e.2 ∧ full_area (l_area info) e.2) p.2.

(** * Concrete data sets and plans *)

Definition single_season (c : cell) : season_cells := season_set Single c no_cells.

(** One irrigated plot of area 10 and one grain-legume crop: yield 500 and
    cost 200 per area unit, price band [2, 3], expected sales 6000. *)
Definition scenario_dataset (land_name : string) (c : nat) (display : string) :
    dataset := {|
  land_info := [(land_name, {| l_type := Irrigated; l_area := 10 |})];
  crop_info := [(c, {| c_name := display; c_type := grain_legume_tag;
                       c_suitable_land := EmptyString |})];
  stats_info := [((c, Irrigated, Single),
                  {| yield_per_mu := 500; cost_per_mu := 200;
                     min_price := 2; max_price := 3 |})];
  expected_sales := [(c, 6000%Q)]
|}.

(** The crop planted single-season on the full plot, horizon one year. *)
Definition scenario_plan (land_name : string) (c : nat) (display : string) : plan :=
  [(land_name,
    [(0%nat, single_season {| crop_id := c; crop_name := display; area := 10 |})])].

(** One dry plot and two grains; crop 1 yields ten times what crop 2 does. *)
Definition two_grain_dataset : dataset := {|
  land_info := [("A1"%string, {| l_type := FlatDry; l_area := 10 |})];
  crop_info := [(1%nat, {| c_name := "wheat"; c_type := grain_marker;
                           c_suitable_land := EmptyString |});
                (2%nat, {| c_name := "millet"; c_type := grain_marker;
                           c_suitable_land := EmptyString |})];
  stats_info := [((1%nat, FlatDry, Single),
                  {| yield_per_mu := 100; cost_per_mu := 10;
                     min_price := 2; max_price := 2 |});
                 ((2%nat, FlatDry, Single),
                  {| yield_per_mu := 10; cost_per_mu := 10;
                     min_price := 2; max_price := 2 |})];
  expected_sales := []
|}.

Definition wheat_cell : cell := {| crop_id := 1; crop_name := "wheat"; area := 10 |}.
Definition millet_cell : cell := {| crop_id := 2; crop_name := "millet"; area := 10 |}.

(** The better of the two one-cell plans, and the worse one. *)
Definition wheat_plan : plan := [("A1"%string, [(0%nat, single_season wheat_cell)])].
Definition millet_plan : plan := [("A1"%string, [(0%nat, single_season millet_cell)])].

(** The search state right after [wheat_plan] has been scored, with a tape
    that picks year 0 and then the second grain. *)
Definition wheat_state : search_state := {|
  ss_heap := (store_plan wheat_plan).1;
  ss_tape := [0; 1]%nat;
  best_solution := (store_plan wheat_plan).2;
  best_fitness := (-296200 # 2)%Q;
  improved := false
|}.

(** Two plots that swap two crops between two years: each crop is on two
    plots over the horizon but on one plot in every stratum. *)
Definition swap_plan : plan :=
  [("A1"%string, [(0%nat, single_season wheat_cell); (1%nat, single_season millet_cell)]);
   ("A2"%string, [(0%nat, single_season millet_cell); (1%nat, single_season wheat_cell)])].

(** Two plots growing the same crop in the same stratum. *)
Definition paired_plan : plan :=
  [("A1"%string, [(0%nat, single_season wheat_cell)]);
   ("A2"%string, [(0%nat, single_season wheat_cell)])].

(** Plots of unequal horizon: the second has a year the first lacks. *)
Definition ragged_plan : plan :=
  [("A1"%string, [(0%nat, single_season wheat_cell)]);
   ("A2"%string, [(0%nat, single_season wheat_cell); (1%nat, single_season millet_cell)])].

(** An irrigated plot in a data set whose crop table has no crop 18. *)
Definition rice_free_dataset : dataset := {|
  land_info := [("B1"%string, {| l_type := Irrigated; l_area := 5 |})];
  crop_info := [(20%nat, {| c_name := "potato"; c_type := vegetable_tag;
                            c_suitable_land := EmptyString |})];
  stats_info := [];
  expected_sales := []
|}.

(** * Vocabulary of the further properties *)

(** No costable cell of the plan yields more than its crop's expected
    sales. *)
Definition no_excess (ds : dataset) (sol : plan) : Prop :=
  ∀ land_name ym info s c st expected,
    (land_name, ym) ∈ sol → dict_get land_name (land_info ds) = Some info →
    (s, c) ∈ plot_cells ym →
    dict_get (crop_id c, l_type info, s) (stats_info ds) = Some st →
    dict_get (crop_id c) (expected_sales ds) = Some expected →
    (yield_per_mu st * area c <= expected)%Q.

(** The years of every plot are exactly [0 .. H-1], in order. *)
Definition plan_shape (H : nat) (sol : plan) : Prop :=
  Forall (λ p, p.2.*1 = seq 0 H) sol.

(** Plot [l] grows crop [c] in some year and season its scan reaches. *)
Definition grows_somewhere (sol : plan) (l : string) (c : nat) : Prop :=
  ∃ ym year s cl, (l, ym) ∈ sol ∧ (year < length ym)%nat ∧
                  cell_at ym year s = Some cl ∧ crop_id cl = c.

(** The cell names a crop of the table, under the table's name for it. *)
Definition crop_listed (ci : list (nat * crop)) (c : cell) : Prop :=
  ∃ info, dict_get (crop_id c) ci = Some info ∧ crop_name c = c_name info.

Definition is_vegetable (ci : list (nat * crop)) (c : cell) : Prop :=
  crop_type_of ci (crop_id c) = vegetable_tag ∧ crop_id c ∉ root_set.

(** Where the generator takes the crop of a cell from, by land type and
    season. *)
Definition cell_sourced (ci : list (nat * crop)) (lt : land_type) (s : season)
    (c : cell) : Prop :=
  match lt, s with
  | (FlatDry | Terrace | Hillside), Single =>
      crop_listed ci c ∧ contains grain_marker (crop_type_of ci (crop_id c)) = true
  | Irrigated, Single => crop_id c = 18%nat ∧ crop_name c = rice_name
  | (Irrigated | Greenhouse | SmartGreenhouse), First =>
      crop_listed ci c ∧ is_vegetable ci c
  | Irrigated, Second => crop_listed ci c ∧ crop_id c ∈ root_set
  | Greenhouse, Second => crop_listed ci c ∧ crop_id c ∈ fungus_set
  | SmartGreenhouse, Second => crop_listed ci c ∧ is_vegetable ci c
  | _, _ => False
  end.

Definition year_sourced (ci : list (nat * crop)) (lt : land_type)
    (sc : season_cells) : Prop :=
  ∀ s c, season_get s sc = Some c → cell_sourced ci lt s c.

Definition plot_sourced (ds : dataset) (p : string * yearmap) : Prop :=
  ∃ info, dict_get p.1 (land_info ds) = Some info ∧
    Forall (λ e, year_sourced (crop_info ds) (l_type info) e.2) p.2.

(** The plans the multi-start loop generates, in order. *)
Fixpoint candidates (ds : dataset) (years : nat) (n : nat) (t : tape) : list plan :=
  match n with
  | O => []
  | S n' =>
      let (solution, t') := _generate_initial_solution ds years t in
      solution :: candidates ds years n' t'
  end.

(** A store in which the plots of an outer dictionary have year
    dictionaries of their own, each satisfying [P]. *)
Definition store_ok (P : string → yearmap → Prop) (h : heap) (p : pyplan) : Prop :=
  NoDup p.*2 ∧ Forall (λ e, ∃ ym, h !! e.2 = Some ym ∧ P e.1 ym) p.

(** The yield a planting row adds to its crop's expected sales, if the row
    has statistics. *)
Definition row_yield (li : list (string * land))
    (si : list ((nat * land_type * season) * stats)) (land_name : string)
    (row : planting) : option Q :=
  info ← dict_get land_name li;
  st ← dict_get (p_crop_id row, l_type info, p_season row) si;
  Some (yield_per_mu st * p_area row)%Q.

(** The yields recorded for crop [c], in sheet order. *)
Definition crop_yields (li : list (string * land))
    (si : list ((nat * land_type * season) * stats))
    (planting_2023 : list (string * list planting)) (c : nat) : list Q :=
  planting_2023 ≫= (λ p,
    omap (λ row, if decide (p_crop_id row = c) then row_yield li si p.1 row else None)
         p.2).

(** An entry extended by a run of yields; no entry and no yield leave no
    entry. *)
Definition extend_sales (entry : option Q) (ys : list Q) : option Q :=
  match entry, ys with
  | Some v, _ => Some (foldl Qplus v ys)
  | None, [] => None
  | None, y :: rest => Some (foldl Qplus y rest)
  end.


(** The plot has, within the first [years] years, a cell whose crop carries
    one of the two legume tags the validator knows. *)
Definition has_tagged_legume (ci : list (nat * crop)) (years : nat)
    (ym : yearmap) : Prop :=
  ∃ c info, c ∈ cells_in_order ym years ∧ dict_get (crop_id c) ci = Some info ∧
            validator_bean info = true.

(** A data set without plots. *)
Definition empty_dataset : dataset := {|
  land_info := []; crop_info := []; stats_info := []; expected_sales := []
|}.

(** Three planting rows on the plot of [two_grain_dataset]: two of wheat
    and one of a crop without statistics. *)
Definition three_rows : list (string * list planting) :=
  [("A1"%string,
    [{| p_crop_id := 1; p_crop_name := "wheat"; p_crop_type := grain_marker;
        p_area := 4; p_season := Single |};
     {| p_crop_id := 7; p_crop_name := "maize"; p_crop_type := grain_marker;
        p_area := 3; p_season := Single |};
     {| p_crop_id := 1; p_crop_name := "wheat"; p_crop_type := grain_marker;
        p_area := 6; p_season := Single |}])].

(** A search state about to make its first pass over [wheat_plan]. *)
Definition wheat_start : search_state := {|
  ss_heap := (store_plan wheat_plan).1;
  ss_tape := [];
  best_solution := (store_plan wheat_plan).2;
  best_fitness := (-296200 # 2)%Q;
  improved := true
|}.

(** * Properties *)

(** ** Rational arithmetic *)

Lemma Qltb_true (a b : Q) : Qltb a b = true ↔ (a < b)%Q.
Proof.
  unfold Qltb. rewrite negb_true_iff. split.
  - intros H. apply Qnot_le_lt. intros Hle. apply Qle_bool_iff in Hle. congruence.
  - intros H. destruct (Qle_bool b a) eqn:E; [|done].
    apply Qle_bool_iff in E. exfalso. apply (Qlt_not_le _ _ H E).
Qed.

Lemma Qltb_false (a b : Q) : Qltb a b = false ↔ (b <= a)%Q.
Proof.
  unfold Qltb. rewrite negb_false_iff. apply Qle_bool_iff.
Qed.

Lemma py_max_0_nonneg (x : Q) : (0 <= py_max 0 x)%Q.
Proof.
  unfold py_max. destruct (Qltb 0 x) eqn:E.
  - apply Qltb_true in E. lra.
  - lra.
Qed.

Lemma sum_Q_cons (x : Q) (l : list Q) : sum_Q (x :: l) = (x + sum_Q l)%Q.
Proof. reflexivity. Qed.

Lemma sum_Q_le {A} (f g : A → Q) (l : list A) :
  (∀ x, x ∈ l → (f x <= g x)%Q) → (sum_Q (f <$> l) <= sum_Q (g <$> l))%Q.
Proof.
  induction l as [|x l IH]; intros H; rewrite ?fmap_cons, ?sum_Q_cons.
  - apply Qle_refl.
  - assert (f x <= g x)%Q by (apply H; left).
    assert (sum_Q (f <$> l) <= sum_Q (g <$> l))%Q by (apply IH; intros; apply H; by right).
    lra.
Qed.

(** ** Plans over known plots *)

Lemma dict_get_elem {K V} `{EqDecision K} (k : K) (v : V) d :
  dict_get k d = Some v → (k, v) ∈ d.
Proof.
  induction d as [|[k' v'] d IH]; simpl; [done|].
  case_decide; intros; simplify_eq; [left | right; auto].
Qed.

Lemma plan_sum_total ds f sol :
  lands_known ds sol → is_Some (plan_sum ds f sol).
Proof.
  induction 1 as [|[land ym] sol [info Hi] _ IH]; simpl; [eauto|].
  simpl in Hi. rewrite Hi. destruct IH as [r ->]. simpl. eauto.
Qed.

Lemma plan_sum_le ds f g sol a b :
  (∀ lt s c, (f lt s c <= g lt s c)%Q) →
  plan_sum ds f sol = Some a → plan_sum ds g sol = Some b → (a <= b)%Q.
Proof.
  intros Hfg. revert a b.
  induction sol as [|[land ym] sol IH]; simpl; intros a b Ha Hb.
  - simplify_eq. lra.
  - destruct (dict_get land (land_info ds)) as [info|]; simpl in *; [|done].
    destruct (plan_sum ds f sol) as [a'|]; simpl in *; [|done].
    destruct (plan_sum ds g sol) as [b'|]; simpl in *; [|done].
    simplify_eq. specialize (IH _ _ eq_refl eq_refl).
    assert (plot_sum (f (l_type info)) ym <= plot_sum (g (l_type info)) ym)%Q.
    { unfold plot_sum. apply sum_Q_le. intros; apply Hfg. }
    lra.
Qed.

Lemma mean_price_nonneg ds key st :
  nonneg_prices ds → dict_get key (stats_info ds) = Some st →
  (0 <= mean_price st)%Q.
Proof.
  intros Hp Hg. apply dict_get_elem in Hg.
  unfold nonneg_prices in Hp. rewrite Forall_forall in Hp.
  destruct (Hp _ Hg) as [H1 H2]. simpl in *.
  unfold mean_price. apply Qle_shift_div_l; lra.
Qed.

Lemma cell_revenue_markdown_ge ds c st :
  (0 <= mean_price st)%Q →
  (cell_revenue ds shortage c st <= cell_revenue ds markdown c st)%Q.
Proof.
  intros Hp. unfold cell_revenue, shortage, markdown.
  destruct (dict_get (crop_id c) (expected_sales ds)) as [expected|]; simpl; [|lra].
  set (y := (yield_per_mu st * area c)%Q).
  assert (0 <= py_max 0 (y - expected) * mean_price st)%Q
    by (apply Qmult_le_0_compat; [apply py_max_0_nonneg | done]).
  assert (0 <= py_max 0 (y - expected) * mean_price st * (1 # 2))%Q
    by (apply Qmult_le_0_compat; [done | lra]).
  lra.
Qed.

(** C3: with the sign-free price bands the loader produces, every cell earns
    at least as much revenue under the markdown scenario as under the
    shortage scenario (same crop, land type, season, statistics, area and
    expected sales), and so does the whole plan: both totals exist for a
    plan over known plots and the markdown total is the larger. *)
Theorem C3_markdown_revenue_ge_shortage (ds : dataset) (sol : plan) :
  nonneg_prices ds → lands_known ds sol →
  (∀ lt s c, (cell_income ds shortage lt s c <= cell_income ds markdown lt s c)%Q) ∧
  ∃ r_short r_mark,
    total_revenue ds shortage sol = Some r_short ∧
    total_revenue ds markdown sol = Some r_mark ∧
    (r_short <= r_mark)%Q.
Proof.
  intros Hp Hk.
  assert (Hcell : ∀ lt s c,
    (cell_income ds shortage lt s c <= cell_income ds markdown lt s c)%Q).
  { intros lt s c. unfold cell_income.
    destruct (dict_get (crop_id c, lt, s) (stats_info ds)) as [st|] eqn:E.
    - apply cell_revenue_markdown_ge. eapply mean_price_nonneg; eauto.
    - apply Qle_refl. }
  split; [exact Hcell|].
  destruct (plan_sum_total ds (cell_income ds shortage) sol Hk) as [a Ha].
  destruct (plan_sum_total ds (cell_income ds markdown) sol Hk) as [b Hb].
  exists a, b. repeat split; [done..|].
  eapply plan_sum_le; eauto.
Qed.

Lemma fitness_total ds sol scenario :
  sol ≠ [] → lands_known ds sol → is_Some (_calculate_fitness ds sol scenario).
Proof.
  intros Hne Hk. unfold _calculate_fitness, total_profit.
  destruct (plan_sum_total ds (cell_profit ds scenario) sol Hk) as [p ->]. simpl.
  unfold _calculate_constraint_penalty.
  destruct sol as [|[land ym] sol]; [done|]. simpl. eauto.
Qed.

(** C10: on a plan with at least one plot (each a plot of the data set) the
    concentration scan finds the first plot's year dictionary and the
    fitness evaluator returns a value; on the plan without plots the
    evaluation raises instead of returning. *)
Theorem C10_fitness_total_on_nonempty (ds : dataset) (sol : plan) (scenario : Z) :
  sol ≠ [] → lands_known ds sol →
  (is_Some (concentration_penalty sol) ∧
   ∃ v, _calculate_fitness ds sol scenario = Some v) ∧
  _calculate_fitness ds [] scenario = None.
Proof.
  intros Hne Hk. split; [split|].
  - destruct sol as [|[land ym] sol]; [done|]. simpl. eauto.
  - destruct (fitness_total ds sol scenario Hne Hk) as [v Hv]. eauto.
  - reflexivity.
Qed.

(** ** The one-plot scenario *)

Lemma scenario_profit l c d scenario :
  ∃ p, total_profit (scenario_dataset l c d) scenario (scenario_plan l c d) = Some p
       ∧ (p == 10500)%Q.
Proof.
  unfold total_profit, scenario_plan, scenario_dataset; simpl.
  rewrite decide_True by done. simpl.
  eexists; split; [reflexivity|].
  unfold plot_sum, plot_cells, cell_profit, cell_revenue; simpl.
  rewrite !decide_True by done.
  destruct (decide (scenario = 1)); vm_compute; done.
Qed.

Lemma scenario_bean_crops l c d : bean_crops (scenario_dataset l c d) = [c].
Proof. reflexivity. Qed.

Lemma scenario_rotation l c d :
  rotation_penalty (scenario_dataset l c d) (scenario_plan l c d) = 0.
Proof.
  unfold rotation_penalty, bean_planted. rewrite scenario_bean_crops.
  unfold scenario_plan. rewrite fmap_cons. cbn [snd length fmap list_fmap].
  replace (cells_in_order _ 1)
    with [{| crop_id := c; crop_name := d; area := 10%Q |}] by (vm_compute; done).
  cbn [existsb crop_id]. rewrite bool_decide_eq_true_2 by (by left). reflexivity.
Qed.

Lemma scenario_replant l c d : replant_penalty (scenario_plan l c d) = 0.
Proof. vm_compute. reflexivity. Qed.

Lemma scenario_min_area l c d : min_area_penalty (scenario_plan l c d) = 0%Q.
Proof. vm_compute. reflexivity. Qed.

Lemma scenario_stratum l c d :
  stratum (scenario_plan l c d) 0 Single = {[c := {[l]}]} ∧
  stratum (scenario_plan l c d) 0 First = ∅ ∧
  stratum (scenario_plan l c d) 0 Second = ∅.
Proof.
  unfold stratum, scenario_plan.
  replace (stratum_entries _ 0 Single) with [(c, l)] by (vm_compute; done).
  replace (stratum_entries _ 0 First) with (@nil (nat * string)) by (vm_compute; done).
  replace (stratum_entries _ 0 Second) with (@nil (nat * string)) by (vm_compute; done).
  repeat split. unfold crop_distribution, dist_add. cbn [foldl fst snd].
  rewrite lookup_empty. cbn [default]. rewrite insert_empty. by rewrite (right_id_L ∅ (∪)).
Qed.

Lemma scenario_concentration l c d :
  concentration_penalty (scenario_plan l c d) = Some 50000.
Proof.
  unfold concentration_penalty.
  unfold scenario_plan at 1.
  cbn [length seq mbind list_bind fmap list_fmap all_seasons app].
  unfold stratum_penalty.
  destruct (scenario_stratum l c d) as (-> & -> & ->).
  rewrite map_fold_singleton, size_singleton, !map_fold_empty. reflexivity.
Qed.

(** C4, as amended: for the one-plot scenario (whatever the plot and crop
    are called, under either scenario) the profit is 10500, revenue 12500
    less cost 2000, but the concentration rule charges 50000 for the crop
    that grows on a single plot, so the fitness is -39500. *)
Theorem C4_scenario_profit_and_fitness (land_name : string) (c : nat)
    (display : string) (scenario : Z) :
  let ds := scenario_dataset land_name c display in
  let sol := scenario_plan land_name c display in
  (∃ p, total_profit ds scenario sol = Some p ∧ (p == 10500)%Q) ∧
  (∃ pen, _calculate_constraint_penalty ds sol = Some pen ∧ (pen == 50000)%Q) ∧
  (∃ v, _calculate_fitness ds sol scenario = Some v ∧ (v == -39500)%Q).
Proof.
  intros ds sol. subst ds sol.
  destruct (scenario_profit land_name c display scenario) as (p & Hp & Hp').
  assert (Hpen : _calculate_constraint_penalty
                   (scenario_dataset land_name c display)
                   (scenario_plan land_name c display)
                 = Some (inject_Z (0 + 0 + 50000) + 0)%Q).
  { unfold _calculate_constraint_penalty.
    rewrite scenario_concentration, scenario_rotation, scenario_replant,
      scenario_min_area. reflexivity. }
  split; [eauto|]. split.
  - eexists; split; [exact Hpen|]. vm_compute. done.
  - unfold _calculate_fitness. rewrite Hp, Hpen. simpl.
    eexists; split; [reflexivity|]. rewrite Hp'. vm_compute. done.
Qed.


(** ** The crop distribution *)

Lemma lands_of_dist_add d c l c' l' :
  l' ∈ lands_of (dist_add d c l) c' ↔ l' ∈ lands_of d c' ∨ (c' = c ∧ l' = l).
Proof.
  unfold lands_of, dist_add. destruct (decide (c = c')) as [->|Hne].
  - rewrite lookup_insert_eq. simpl. set_solver.
  - rewrite lookup_insert_ne by done. naive_solver.
Qed.

Lemma dist_add_nonempty d c l : plots_nonempty d → plots_nonempty (dist_add d c l).
Proof.
  intros Hd c' X. unfold dist_add. destruct (decide (c = c')) as [->|Hne].
  - rewrite lookup_insert_eq. intros [= <-]. set_solver.
  - rewrite lookup_insert_ne by done. apply Hd.
Qed.

Lemma dist_fold_spec entries d :
  let d' := foldl (λ d e, dist_add d e.1 e.2) d entries in
  (∀ c l, l ∈ lands_of d' c ↔ l ∈ lands_of d c ∨ (c, l) ∈ entries) ∧
  (plots_nonempty d → plots_nonempty d').
Proof.
  revert d. induction entries as [|[c0 l0] entries IH]; intros d; simpl.
  - split; [|done]. intros c l. rewrite elem_of_nil. tauto.
  - destruct (IH (dist_add d c0 l0)) as [IH1 IH2]. split.
    + intros c l. rewrite IH1, lands_of_dist_add, elem_of_cons. naive_solver.
    + intros Hd. by apply IH2, dist_add_nonempty.
Qed.

Lemma elem_of_crop_distribution entries c l :
  l ∈ lands_of (crop_distribution entries) c ↔ (c, l) ∈ entries.
Proof.
  unfold crop_distribution.
  destruct (dist_fold_spec entries ∅) as [H _]. rewrite H.
  unfold lands_of. rewrite lookup_empty. set_solver.
Qed.

Lemma crop_distribution_nonempty entries :
  plots_nonempty (crop_distribution entries).
Proof.
  destruct (dist_fold_spec entries ∅) as [_ H]. apply H. apply map_Forall_empty.
Qed.

(** A crop is a key of the distribution exactly when it has an entry, and
    its value is then the set of its plots. *)
Lemma crop_distribution_lookup entries c (X : gset string) :
  crop_distribution entries !! c = Some X ↔
  X ≠ ∅ ∧ ∀ l, l ∈ X ↔ (c, l) ∈ entries.
Proof.
  split.
  - intros HX. split; [by eapply crop_distribution_nonempty|].
    intros l. rewrite <- elem_of_crop_distribution. unfold lands_of. by rewrite HX.
  - intros [Hne HX].
    destruct (crop_distribution entries !! c) as [Y|] eqn:E.
    + f_equal. apply set_eq. intros l. rewrite HX, <- elem_of_crop_distribution.
      unfold lands_of. by rewrite E.
    + exfalso. apply Hne. apply set_eq. intros l.
      rewrite HX, <- elem_of_crop_distribution. unfold lands_of. by rewrite E.
Qed.

(** ** Sums of charges *)

Lemma conc_term_nonneg n : 0 ≤ conc_term n.
Proof. unfold conc_term. repeat case_decide; lia. Qed.

Lemma conc_term_zero n : conc_term n = 0 ↔ (2 ≤ n ≤ 8)%nat.
Proof. unfold conc_term. repeat case_decide; lia. Qed.

Lemma sum_Z_zero (l : list Z) :
  Forall (λ x, 0 ≤ x) l → 0 ≤ sum_Z l ∧ (sum_Z l = 0 ↔ Forall (λ x, x = 0) l).
Proof.
  induction 1 as [|x l Hx _ [IH1 IH2]]; simpl.
  - split; [done|]. split; auto.
  - split; [lia|]. rewrite Forall_cons, <- IH2. lia.
Qed.

Lemma dist_charge_zero (d : gmap nat (gset string)) :
  let total := map_fold (λ _ lands acc, acc + conc_term (size lands)) 0 d in
  0 ≤ total ∧
  (total = 0 ↔ map_Forall (λ _ (X : gset string), (2 ≤ size X ≤ 8)%nat) d).
Proof.
  simpl. apply (map_fold_weak_ind (λ r m, 0 ≤ r ∧
    (r = 0 ↔ map_Forall (λ _ (X : gset string), (2 ≤ size X ≤ 8)%nat) m))).
  - split; [done|]. split; [intros _; apply map_Forall_empty | done].
  - intros c X m r Hc [Hr IH].
    pose proof (conc_term_nonneg (size X)).
    split; [lia|]. rewrite map_Forall_insert by done.
    rewrite <- IH, <- conc_term_zero. lia.
Qed.

Lemma stratum_penalty_zero sol year s :
  0 ≤ stratum_penalty sol year s ∧
  (stratum_penalty sol year s = 0 ↔
   map_Forall (λ _ (X : gset string), (2 ≤ size X ≤ 8)%nat) (stratum sol year s)).
Proof. apply dist_charge_zero. Qed.

(** ** Strata *)

Lemma elem_of_stratum_entries sol year s c l :
  (c, l) ∈ stratum_entries sol year s ↔ grows sol l year s c.
Proof.
  unfold stratum_entries, grows. rewrite list_elem_of_omap. split.
  - intros ([l' ym] & Hin & Hc). simpl in Hc.
    destruct (cell_at ym year s) as [cl|] eqn:E; simplify_eq/=. eauto.
  - intros (ym & cl & Hin & Hc & <-). exists (l, ym). split; [done|].
    simpl. by rewrite Hc.
Qed.

Lemma stratum_lookup sol year s c (X : gset string) :
  stratum sol year s !! c = Some X ↔
  X ≠ ∅ ∧ ∀ l, l ∈ X ↔ grows sol l year s c.
Proof.
  unfold stratum. rewrite crop_distribution_lookup.
  by setoid_rewrite elem_of_stratum_entries.
Qed.

Lemma concentration_penalty_zero l0 ym0 sol :
  concentration_penalty ((l0, ym0) :: sol) = Some 0 ↔
  ∀ year s, (year < length ym0)%nat →
    map_Forall (λ _ (X : gset string), (2 ≤ size X ≤ 8)%nat)
      (stratum ((l0, ym0) :: sol) year s).
Proof.
  unfold concentration_penalty.
  set (full := (l0, ym0) :: sol).
  set (terms := seq 0 (length ym0) ≫= (λ year, stratum_penalty full year <$> all_seasons)).
  assert (Hnn : Forall (λ x, 0 ≤ x) terms).
  { apply Forall_forall. intros x (year & Hx & _)%list_elem_of_bind.
    apply list_elem_of_fmap in Hx as (s & -> & _). apply stratum_penalty_zero. }
  destruct (sum_Z_zero terms Hnn) as [_ Hz].
  split.
  - intros [= Hsum]. apply Hz in Hsum. rewrite Forall_forall in Hsum.
    intros year s Hy. apply stratum_penalty_zero. apply Hsum.
    apply list_elem_of_bind. exists year. split.
    + apply list_elem_of_fmap. exists s. split; [done|]. destruct s; set_solver.
    + apply elem_of_seq. lia.
  - intros H. f_equal. apply Hz. apply Forall_forall.
    intros x (year & Hx & Hy%elem_of_seq)%list_elem_of_bind.
    apply list_elem_of_fmap in Hx as (s & -> & _).
    apply stratum_penalty_zero. apply H. lia.
Qed.

(** ** Plans with a common horizon *)

Lemma cell_at_year_key ym year s cl :
  cell_at ym year s = Some cl → ∃ sc, (year, sc) ∈ ym ∧ season_get s sc = Some cl.
Proof.
  unfold cell_at. destruct (dict_get year ym) as [sc|] eqn:E; simpl; [|done].
  intros Hs. exists sc. split; [by apply dict_get_elem | done].
Qed.

Lemma grows_year_lt H sol l year s c :
  years_in_range H sol → grows sol l year s c → (year < H)%nat.
Proof.
  intros Hr (ym & cl & Hin & Hc & _).
  unfold years_in_range in Hr. rewrite Forall_forall in Hr.
  specialize (Hr _ Hin). simpl in Hr. rewrite Forall_forall in Hr.
  apply cell_at_year_key in Hc as (sc & Hsc & _). apply (Hr _ Hsc).
Qed.

(** C6: for a plan with at least one plot whose plots all span the years
    [0 .. H-1], the concentration penalty is zero exactly when, in every
    (year, season) stratum, every crop that appears there is grown on at
    least 2 and at most 8 distinct plots. *)
Theorem C6_concentration_zero_iff_bounds (H : nat) (sol : plan) :
  sol ≠ [] → uniform_horizon H sol → years_in_range H sol →
  (concentration_penalty sol = Some 0 ↔
   ∀ year s c (X : gset string),
     (∀ l, l ∈ X ↔ grows sol l year s c) → X ≠ ∅ → (2 ≤ size X ≤ 8)%nat).
Proof.
  intros Hne Hu Hr. destruct sol as [|[l0 ym0] sol]; [done|].
  rewrite concentration_penalty_zero.
  assert (Hlen : length ym0 = H) by (by inversion Hu).
  split.
  - intros Hz year s c X HX HXne.
    assert (∃ l, l ∈ X) as [l Hl] by (by apply set_choose_L).
    assert (year < length ym0)%nat.
    { rewrite Hlen. eapply grows_year_lt; [done|]. by apply HX. }
    apply (Hz year s) with (i := c); [done|]. by apply stratum_lookup.
  - intros Hb year s _ c X [HXne HX]%stratum_lookup. by apply (Hb year s c).
Qed.

(** ** Validator against the penalty *)

Lemma elem_of_cells_in_order ym n cl :
  cl ∈ cells_in_order ym n ↔ ∃ year s, (year < n)%nat ∧ cell_at ym year s = Some cl.
Proof.
  unfold cells_in_order. rewrite list_elem_of_bind. split.
  - intros (year & Hc & Hy%elem_of_seq). apply list_elem_of_omap in Hc as (s & _ & Hs).
    exists year, s. split; [lia | done].
  - intros (year & s & Hy & Hs). exists year. split.
    + apply list_elem_of_omap. exists s. split; [destruct s; set_solver | done].
    + apply elem_of_seq. lia.
Qed.

Lemma elem_of_plan_entries sol c l :
  (c, l) ∈ plan_entries sol ↔
  ∃ ym year s, (l, ym) ∈ sol ∧ (year < length ym)%nat ∧
               ∃ cl, cell_at ym year s = Some cl ∧ crop_id cl = c.
Proof.
  unfold plan_entries. rewrite list_elem_of_bind. split.
  - intros ([l' ym] & Hc & Hin). simpl in Hc.
    apply list_elem_of_fmap in Hc as (cl & [= -> ->] & Hcl).
    apply elem_of_cells_in_order in Hcl as (year & s & Hy & Hs).
    exists ym, year, s. eauto.
  - intros (ym & year & s & Hin & Hy & cl & Hs & <-).
    exists (l, ym). split; [|done]. simpl.
    apply list_elem_of_fmap. exists cl. split; [done|].
    apply elem_of_cells_in_order. eauto.
Qed.

Lemma validate_concentration_true sol min_plots :
  validate_concentration sol min_plots = true ↔
  ∀ c (X : gset string),
    crop_distribution (plan_entries sol) !! c = Some X → (min_plots ≤ size X)%nat.
Proof.
  unfold validate_concentration. rewrite bool_decide_eq_true.
  unfold map_Forall. split; intros Hf c X HX; specialize (Hf c X HX); simpl in *; lia.
Qed.

(** C5, as amended: for a plan whose plots all have the same number of
    years, a zero concentration penalty implies that the validator's
    concentration check passes with [min_plots = 2].  The converse fails:
    the validator pools all years and seasons and has no upper bound. *)
Theorem C5_zero_penalty_implies_validator (H : nat) (sol : plan) :
  uniform_horizon H sol →
  concentration_penalty sol = Some 0 →
  validate_concentration sol 2 = true.
Proof.
  intros Hu Hz. destruct sol as [|[l0 ym0] sol]; [done|].
  rewrite concentration_penalty_zero in Hz.
  assert (Hlen : length ym0 = H) by (by inversion Hu).
  unfold uniform_horizon in Hu. rewrite Forall_forall in Hu.
  apply validate_concentration_true. intros c X [HXne HX]%crop_distribution_lookup.
  assert (∃ l, l ∈ X) as [l Hl] by (by apply set_choose_L).
  apply HX, elem_of_plan_entries in Hl as (ym & year & s & Hin & Hy & cl & Hs & Hc).
  assert (Hgrow : grows ((l0, ym0) :: sol) l year s c) by (exists ym, cl; eauto).
  assert (Hyear : (year < length ym0)%nat)
    by (rewrite Hlen, <- (Hu _ Hin); done).
  assert (Hl : l ∈ lands_of (stratum ((l0, ym0) :: sol) year s) c)
    by apply elem_of_crop_distribution, elem_of_stratum_entries, Hgrow.
  unfold lands_of in Hl.
  destruct (stratum ((l0, ym0) :: sol) year s !! c) as [Y|] eqn:E;
    simpl in Hl; [|set_solver].
  pose proof (Hz year s Hyear c Y E) as Hsize. simpl in Hsize.
  apply stratum_lookup in E as [_ HY].
  assert (Hsub : Y ⊆ X).
  { intros l' (ym' & cl' & Hin' & Hs' & Hc')%HY.
    apply HX, elem_of_plan_entries. exists ym', year, s.
    split; [done|]. split; [|eauto].
    specialize (Hu _ Hin'). simpl in Hu. lia. }
  apply subseteq_size in Hsub. lia.
Qed.

(** ** Legumes *)

Lemma elem_of_bean_crops ds c : c ∈ bean_crops ds ↔ legume ds c.
Proof.
  unfold bean_crops, legume. rewrite list_elem_of_fmap. split.
  - intros ([c' info] & -> & [Hm Hin]%list_elem_of_filter). eauto.
  - intros (info & Hin & Hm). exists (c, info). split; [done|].
    by apply list_elem_of_filter.
Qed.

Lemma validator_bean_marker info :
  validator_bean info = true → contains legume_marker (c_type info) = true.
Proof.
  unfold validator_bean. rewrite bool_decide_eq_true.
  rewrite !elem_of_cons, elem_of_nil. intros [-> | [-> | []]]; by vm_compute.
Qed.

Lemma bean_planted_false ds ym : no_legume_cells ds ym → bean_planted ds ym = false.
Proof.
  intros Hno. unfold bean_planted. apply not_true_is_false.
  intros (cl & Hin & Hb)%existsb_exists.
  apply list_elem_of_In, elem_of_cells_in_order in Hin as (year & s & _ & Hc).
  apply bool_decide_eq_true, elem_of_bean_crops in Hb. by eapply Hno.
Qed.

Lemma bean_planted_true ds ym :
  bean_planted ds ym = true →
  ∃ year s cl, (year < length ym)%nat ∧ cell_at ym year s = Some cl ∧
               legume ds (crop_id cl).
Proof.
  intros (cl & Hin & Hb)%existsb_exists.
  apply list_elem_of_In, elem_of_cells_in_order in Hin as (year & s & Hy & Hc).
  apply bool_decide_eq_true, elem_of_bean_crops in Hb. eauto 6.
Qed.

Lemma bean_planted_false_iff ds ym :
  bean_planted ds ym = false ↔
  ∀ year s cl, (year < length ym)%nat → cell_at ym year s = Some cl →
               ¬ legume ds (crop_id cl).
Proof.
  split.
  - intros Hb year s cl Hy Hc Hleg.
    assert (bean_planted ds ym = true); [|congruence].
    apply existsb_exists. exists cl. split.
    + apply list_elem_of_In, elem_of_cells_in_order. eauto.
    + by apply bool_decide_eq_true, elem_of_bean_crops.
  - intros Hno. apply not_true_is_false.
    intros (year & s & cl & Hy & Hc & Hleg)%bean_planted_true. by eapply Hno.
Qed.

Lemma rotation_penalty_count ds sol :
  rotation_penalty ds sol =
  100000 * Z.of_nat (length (filter (λ p, bean_planted ds p.2 = false) sol)).
Proof.
  unfold rotation_penalty. induction sol as [|[l ym] sol IH]; [done|].
  rewrite fmap_cons. cbn [sum_Z foldr snd].
  fold (sum_Z ((λ p, if bean_planted ds p.2 then 0 else 100000) <$> sol)).
  rewrite IH. destruct (bean_planted ds ym) eqn:E.
  - rewrite filter_cons_False by (simpl; congruence). lia.
  - rewrite filter_cons_True by done. simpl length. lia.
Qed.

Lemma rotation_scan_no_legume ds cells :
  Forall (λ cl, ¬ legume ds (crop_id cl)) cells →
  rotation_scan (crop_info ds) cells ≠ Some true ∧
  (Forall (λ cl, is_Some (dict_get (crop_id cl) (crop_info ds))) cells →
   rotation_scan (crop_info ds) cells = Some false).
Proof.
  induction 1 as [|cl cells Hcl _ [IH1 IH2]]; simpl; [done|].
  destruct (dict_get (crop_id cl) (crop_info ds)) as [info|] eqn:E; simpl.
  - destruct (validator_bean info) eqn:Hv.
    + exfalso. apply Hcl. exists info. split; [by apply dict_get_elem|].
      by apply validator_bean_marker.
    + split; [done|]. intros Hk. apply IH2. by inversion Hk.
  - split; [done|]. intros Hk. inversion Hk as [|?? [? ?]]; simplify_eq.
Qed.

Lemma rotation_scan_known ci cells :
  Forall (λ cl, is_Some (dict_get (crop_id cl) ci)) cells →
  is_Some (rotation_scan ci cells).
Proof.
  induction 1 as [|cl cells [info Hi] _ IH]; simpl; [eauto|].
  rewrite Hi. simpl. destruct (validator_bean info); eauto.
Qed.

Lemma cells_no_legume ds ym n :
  no_legume_cells ds ym → Forall (λ cl, ¬ legume ds (crop_id cl)) (cells_in_order ym n).
Proof.
  intros Hno. apply Forall_forall.
  intros cl (year & s & _ & Hc)%elem_of_cells_in_order. by eapply Hno.
Qed.

Lemma cells_known ci sol l ym n :
  crops_known ci sol → (l, ym) ∈ sol →
  Forall (λ cl, is_Some (dict_get (crop_id cl) ci)) (cells_in_order ym n).
Proof.
  intros Hk Hin. apply Forall_forall.
  intros cl (year & s & _ & Hc)%elem_of_cells_in_order. by eapply Hk.
Qed.

Lemma validate_rotation_no_legume ds sol years l ym :
  (l, ym) ∈ sol → no_legume_cells ds ym →
  validate_rotation sol (crop_info ds) years ≠ Some true ∧
  (crops_known (crop_info ds) sol →
   validate_rotation sol (crop_info ds) years = Some false).
Proof.
  intros Hin Hno. induction sol as [|[l' ym'] sol IH]; [by apply elem_of_nil in Hin|].
  simpl. apply elem_of_cons in Hin as [[= <- <-]|Hin].
  - destruct (rotation_scan_no_legume ds (cells_in_order ym years)
                (cells_no_legume ds ym years Hno)) as [H1 H2].
    split.
    + destruct (rotation_scan _ _) as [[]|]; simpl; done.
    + intros Hk. rewrite H2; [done|]. eapply cells_known; [done|left].
  - destruct (IH Hin) as [IH1 IH2]. split.
    + destruct (rotation_scan _ _) as [[]|]; simpl; done.
    + intros Hk.
      destruct (rotation_scan_known (crop_info ds) (cells_in_order ym' years))
        as [b ->]; [eapply cells_known; [done|left]|].
      simpl. destruct b; [|done]. apply IH2.
      intros l1 ym1 year s cl Hin1 Hc.
      eapply Hk; [right; exact Hin1 | exact Hc].
Qed.

(** C7: a crop is in [bean_crops] exactly when its category tag contains
    the legume marker.  If some plot of the plan has no legume cell in any
    year, [validate_rotation] never answers [True], and answers [False]
    whenever every crop id of the plan is in the crop set; the penalty scan
    finds no legume on that plot, and the rotation penalty is 100000 times
    the number of plots whose scan finds none, so each such plot is charged
    exactly once. *)
Theorem C7_rotation_violation (ds : dataset) (sol : plan) (years : nat)
    (l : string) (ym : yearmap) :
  (l, ym) ∈ sol → no_legume_cells ds ym →
  (∀ c, c ∈ bean_crops ds ↔ legume ds c) ∧
  validate_rotation sol (crop_info ds) years ≠ Some true ∧
  (crops_known (crop_info ds) sol →
   validate_rotation sol (crop_info ds) years = Some false) ∧
  bean_planted ds ym = false ∧
  rotation_penalty ds sol =
    100000 * Z.of_nat (length (filter (λ p, bean_planted ds p.2 = false) sol)) ∧
  (∀ p : string * yearmap, bean_planted ds p.2 = false ↔
        ∀ year s cl, (year < length p.2)%nat → cell_at p.2 year s = Some cl →
                     ¬ legume ds (crop_id cl)).
Proof.
  intros Hin Hno.
  destruct (validate_rotation_no_legume ds sol years l ym Hin Hno) as [H1 H2].
  split; [apply elem_of_bean_crops|]. split; [done|]. split; [done|].
  split; [by apply bean_planted_false|].
  split; [apply rotation_penalty_count | intros p; apply bean_planted_false_iff].
Qed.

(** ** Dictionary updates *)

Lemma dict_set_Forall {K V} `{EqDecision K} (P : K * V → Prop) k v d :
  P (k, v) → Forall P d → Forall P (dict_set k v d).
Proof.
  intros Hkv. induction 1 as [|[k' v'] d Hx Hd IH]; simpl.
  - by constructor.
  - case_decide; constructor; auto.
Qed.

(** ** The structural invariant of a plan *)

Lemma choice_elem {A} (x : A) xs t : (choice x xs t).1 ∈ x :: xs.
Proof.
  unfold choice, rand_bind, rand_ret. destruct (draw t) as [r t'].
  cbn [fst]. apply list_elem_of_In, nth_In.
  change (length (x :: xs)) with (S (length xs)).
  apply Nat.mod_upper_bound. done.
Qed.

(** What [plant] can do to a year: nothing, or one cell of a candidate crop
    on the whole plot. *)
Lemma plant_cases ci s cands a sc t :
  (plant ci s cands a sc t).1 = sc ∨
  ∃ c, c ∈ cands ∧ (plant ci s cands a sc t).1 = season_set s (mk_cell ci c a) sc.
Proof.
  unfold plant. destruct cands as [|x xs]; [by left|]. right.
  unfold rand_bind, rand_ret.
  pose proof (choice_elem x xs t) as Hc.
  destruct (choice x xs t) as [c t']. simpl in *. eauto.
Qed.

Lemma second_crops_root ci c : c ∈ second_crops ci → c ∈ root_set.
Proof. unfold second_crops. by intros [_ ?]%list_elem_of_filter. Qed.

Lemma mushroom_crops_fungus ci c : c ∈ mushroom_crops ci → c ∈ fungus_set.
Proof. unfold mushroom_crops. by intros [_ ?]%list_elem_of_filter. Qed.

Lemma full_area_no_cells a : full_area a no_cells.
Proof. by intros []. Qed.

Lemma full_area_set a s c ci sc :
  full_area a sc → full_area a (season_set s (mk_cell ci c a) sc).
Proof.
  intros Hsc s' cl.
  destruct s, s'; simpl; intros Heq; simplify_eq; try reflexivity;
    first [exact (Hsc Single _ Heq) | exact (Hsc First _ Heq) | exact (Hsc Second _ Heq)].
Qed.

Lemma regenerate_structural ci lt a t :
  cells_legal lt (regenerate ci lt a t).1 ∧ full_area a (regenerate ci lt a t).1.
Proof.
  destruct lt; unfold regenerate, rand_bind, rand_ret, cells_legal.
  1-3: destruct (plant_cases ci Single (grain_crops ci) a no_cells t)
        as [-> | (c & _ & ->)];
       (split; [done | (apply full_area_no_cells || apply full_area_set, full_area_no_cells)]).
  - destruct (coin t) as [[] t1]; simpl fst.
    + split; [by left|]. intros [] cl; simpl; intros; by simplify_eq.
    + pose proof (plant_cases ci First (veg_crops ci) a no_cells t1) as H1.
      destruct (plant ci First (veg_crops ci) a no_cells t1) as [sc1 t2]. simpl fst in *.
      pose proof (plant_cases ci Second (second_crops ci) a sc1 t2) as H2.
      destruct (plant ci Second (second_crops ci) a sc1 t2) as [sc2 t3]. simpl fst in *.
      destruct H1 as [-> | (c1 & _ & ->)], H2 as [-> | (c2 & Hc2 & ->)];
        (split; [right; split; [done|]; simpl; intros; simplify_eq; simpl;
                 by apply second_crops_root in Hc2
                | repeat apply full_area_set; apply full_area_no_cells ]).
  - pose proof (plant_cases ci First (veg_crops ci) a no_cells t) as H1.
    destruct (plant ci First (veg_crops ci) a no_cells t) as [sc1 t2]. simpl fst in *.
    pose proof (plant_cases ci Second (mushroom_crops ci) a sc1 t2) as H2.
    destruct (plant ci Second (mushroom_crops ci) a sc1 t2) as [sc2 t3]. simpl fst in *.
    destruct H1 as [-> | (c1 & _ & ->)], H2 as [-> | (c2 & Hc2 & ->)];
      (split; [split; [done|]; simpl; intros; simplify_eq; simpl;
               by apply mushroom_crops_fungus in Hc2
              | repeat apply full_area_set; apply full_area_no_cells ]).
  - pose proof (plant_cases ci First (veg_crops ci) a no_cells t) as H1.
    destruct (plant ci First (veg_crops ci) a no_cells t) as [sc1 t2]. simpl fst in *.
    pose proof (plant_cases ci Second (veg_crops ci) a sc1 t2) as H2.
    destruct (plant ci Second (veg_crops ci) a sc1 t2) as [sc2 t3]. simpl fst in *.
    destruct H1 as [-> | (c1 & _ & ->)], H2 as [-> | (c2 & Hc2 & ->)];
      (split; [done | repeat apply full_area_set; apply full_area_no_cells ]).
  - split; [done | apply full_area_no_cells].
Qed.

Lemma gen_years_structural ci lt a years ym t :
  Forall (λ e, cells_legal lt e.2 ∧ full_area a e.2) ym →
  Forall (λ e, cells_legal lt e.2 ∧ full_area a e.2) (gen_years ci lt a years ym t).1.
Proof.
  revert ym t. induction years as [|year later IH]; intros ym t Hym; [done|].
  simpl. unfold rand_bind.
  pose proof (regenerate_structural ci lt a t) as Hsc.
  destruct (regenerate ci lt a t) as [sc t1]. simpl fst in Hsc.
  apply IH. by apply dict_set_Forall.
Qed.

Lemma gen_lands_structural ds years lands solution t :
  Forall (plot_structural ds) solution →
  Forall (plot_structural ds) (gen_lands ds years lands solution t).1.
Proof.
  revert solution t. induction lands as [|land later IH]; intros solution t Hs; [done|].
  simpl. destruct (dict_get land (land_info ds)) as [info|] eqn:E; [|by apply IH].
  unfold rand_bind.
  pose proof (gen_years_structural (crop_info ds) (l_type info) (l_area info)
                (seq 0 years) [] t (Forall_nil_2 _)) as Hym.
  destruct (gen_years _ _ _ _ _ t) as [ym t1]. simpl fst in Hym.
  apply IH. apply dict_set_Forall; [|done]. exists info. eauto.
Qed.

(** C8: in every plan the generator returns, whatever the data set, the
    horizon and the random draws, each plot is a plot of the data set, each
    of its years carries only season labels legal for the land type (with
    the irrigated second season drawn from ids 37-39 and the ordinary
    greenhouse second season from the fungus ids 40-43), and each cell
    covers the plot's full area. *)
Theorem C8_generated_plan_structural (ds : dataset) (years : nat) (t : tape) :
  Forall (plot_structural ds) (_generate_initial_solution ds years t).1.
Proof. apply gen_lands_structural. constructor. Qed.

(** ** Local search on shared dictionaries *)

Lemma wheat_state_scored :
  fitness_in two_grain_dataset (ss_heap wheat_state) (best_solution wheat_state)
    shortage = Some (best_fitness wheat_state).
Proof. vm_compute. reflexivity. Qed.

(** C2, on the code: a trial that is evaluated and rejected still rewrites
    the plan [best_solution] denotes, because the candidate is a shallow
    copy that shares the plot's year dictionary. *)
Theorem C2_rejected_trial_rewrites_best :
  ∃ st',
    try_land two_grain_dataset shortage "A1" wheat_state = Some st' ∧
    improved st' = false ∧
    best_solution st' = best_solution wheat_state ∧
    best_fitness st' = best_fitness wheat_state ∧
    deref (ss_heap wheat_state) (best_solution wheat_state) = Some wheat_plan ∧
    deref (ss_heap st') (best_solution st') = Some millet_plan ∧
    plan_cell wheat_plan "A1" 0 Single = Some wheat_cell ∧
    plan_cell millet_plan "A1" 0 Single = Some millet_cell ∧
    wheat_cell ≠ millet_cell.
Proof.
  eexists. split; [vm_compute; reflexivity|].
  repeat split; try (vm_compute; reflexivity). discriminate.
Qed.

(** C1, on the code: started from [wheat_plan], one pass whose only trial is
    rejected returns a plan of lower fitness than the input had, for every
    positive pass cap. *)
Theorem C1_local_search_lowers_fitness (cap : nat) :
  let ds := two_grain_dataset in
  let h := (store_plan wheat_plan).1 in
  let p := (store_plan wheat_plan).2 in
  ∃ h' out f_in f_out,
    local_search (S cap) ds h p shortage [0; 0; 1]%nat = Some (h', out) ∧
    fitness_in ds h p shortage = Some f_in ∧
    fitness_in ds h' out shortage = Some f_out ∧
    deref h' out = Some millet_plan ∧
    (f_out < f_in)%Q.
Proof.
  intros ds h p.
  exists [[(0%nat, single_season millet_cell)]], [("A1"%string, 0%nat)],
    (-296200 # 2)%Q, (-299800 # 2)%Q.
  split; [|repeat split; vm_compute; reflexivity].
  unfold local_search.
  replace (deref h (shallow_copy p)) with (Some wheat_plan) by (vm_compute; reflexivity).
  cbn [mbind option_bind].
  replace (_calculate_fitness ds wheat_plan shortage) with (Some (-296200 # 2)%Q)
    by (vm_compute; reflexivity).
  cbn [mbind option_bind search_loop improved].
  destruct cap; vm_compute; reflexivity.
Qed.

(** ** The hard-coded rice cell *)

(** C9, on the code: with a crop table that has no crop 18, an irrigated
    plot-year that takes the rice branch gets a cell whose crop id is not a
    key of [crop_info], both in the generator and in the regeneration step
    of the local search. *)
Theorem C9_rice_cell_outside_crop_set :
  let ds := rice_free_dataset in
  dict_get 18%nat (crop_info ds) = None ∧
  (_generate_initial_solution ds 1 [0%nat]).1
    = [("B1"%string, [(0%nat, single_season (rice_cell 5))])] ∧
  (regenerate (crop_info ds) Irrigated 5 [0%nat]).1 = single_season (rice_cell 5) ∧
  crop_id (rice_cell 5) = 18%nat ∧
  ¬ crops_known (crop_info ds) (_generate_initial_solution ds 1 [0%nat]).1.
Proof.
  intros ds. repeat split; try (vm_compute; reflexivity).
  intros Hk.
  destruct (Hk "B1"%string [(0%nat, single_season (rice_cell 5))] 0%nat Single
              (rice_cell 5)) as [info Hinfo].
  - vm_compute. left.
  - reflexivity.
  - vm_compute in Hinfo. discriminate.
Qed.

(** ** Plans the generator builds share one horizon *)

Lemma dict_set_fresh {K V} `{EqDecision K} (k : K) (v : V) d :
  k ∉ d.*1 → dict_set k v d = d ++ [(k, v)].
Proof.
  induction d as [|[k' v'] d IH]; simpl; [done|].
  rewrite not_elem_of_cons. intros [Hne Hd].
  rewrite decide_False by done. by rewrite IH.
Qed.

Lemma gen_years_keys ci lt a k n ym t :
  ym.*1 = seq 0 n → (gen_years ci lt a (seq n k) ym t).1.*1 = seq 0 (n + k).
Proof.
  revert n ym t. induction k as [|k IH]; intros n ym t Hym; simpl.
  - by rewrite Nat.add_0_r.
  - unfold rand_bind. destruct (regenerate ci lt a t) as [sc t1].
    replace (n + S k)%nat with (S n + k)%nat by lia. apply IH.
    rewrite dict_set_fresh by (rewrite Hym, elem_of_seq; lia).
    rewrite fmap_app, Hym. cbn [fmap list_fmap fst]. by rewrite seq_S.
Qed.

Lemma gen_lands_keys ds years lands solution t :
  Forall (λ p, p.2.*1 = seq 0 years) solution →
  Forall (λ p, p.2.*1 = seq 0 years) (gen_lands ds years lands solution t).1.
Proof.
  revert solution t. induction lands as [|land later IH]; intros solution t Hs; [done|].
  simpl. destruct (dict_get land (land_info ds)) as [info|]; [|by apply IH].
  unfold rand_bind.
  pose proof (gen_years_keys (crop_info ds) (l_type info) (l_area info)
                years 0 [] t eq_refl) as Hym.
  destruct (gen_years _ _ _ _ _ t) as [ym t1]. simpl fst in Hym.
  apply IH. by apply dict_set_Forall.
Qed.

Lemma generated_plan_horizon ds years t :
  uniform_horizon years (_generate_initial_solution ds years t).1 ∧
  years_in_range years (_generate_initial_solution ds years t).1.
Proof.
  pose proof (gen_lands_keys ds years (dict_keys (land_info ds)) [] t (Forall_nil_2 _))
    as Hk.
  fold (_generate_initial_solution ds years) in Hk.
  unfold uniform_horizon, years_in_range.
  split; eapply Forall_impl; try exact Hk; intros [l ym] Hym; simpl in *.
  - by rewrite <- (length_fmap fst), Hym, length_seq.
  - apply Forall_forall. intros [y sc] Hin. simpl.
    assert (y ∈ ym.*1) as Hy by (apply list_elem_of_fmap; by exists (y, sc)).
    rewrite Hym in Hy. apply elem_of_seq in Hy. lia.
Qed.

(** ** Instances *)

(** C4: at the scenario's data the fitness is not 10500. *)
Lemma C4_fitness_is_not_10500 :
  ¬ ∃ v, _calculate_fitness (scenario_dataset "B1" 1 "soy")
           (scenario_plan "B1" 1 "soy") shortage = Some v ∧ (v == 10500)%Q.
Proof.
  intros (v & Hv & Heq). vm_compute in Hv. simplify_eq. vm_compute in Heq. done.
Qed.

(** C5: on [swap_plan] the validator passes although the concentration
    rule charges every stratum. *)
Lemma C5_validator_passes_penalty_charged :
  ¬ (validate_concentration swap_plan 2 = true ↔
     concentration_penalty swap_plan = Some 0).
Proof.
  intros [H _].
  assert (Hv : validate_concentration swap_plan 2 = true) by (vm_compute; reflexivity).
  specialize (H Hv). vm_compute in H. discriminate.
Qed.

(** The penalty scan takes its years from the first plot: on plots of
    unequal horizon it can miss a cell the validator counts. *)
Lemma ragged_plan_penalty_free_but_invalid :
  concentration_penalty ragged_plan = Some 0 ∧
  validate_concentration ragged_plan 2 = false.
Proof. split; vm_compute; reflexivity. Qed.

Lemma paired_plan_horizon :
  uniform_horizon 1 paired_plan ∧ years_in_range 1 paired_plan.
Proof.
  split; repeat constructor.
Defined.

Lemma C3_markdown_revenue_witness :
  let ds := scenario_dataset "B1" 1 "soy" in
  let sol := scenario_plan "B1" 1 "soy" in
  nonneg_prices ds ∧ lands_known ds sol ∧
  ((∀ lt s c, (cell_income ds shortage lt s c <= cell_income ds markdown lt s c)%Q) ∧
   ∃ r_short r_mark,
     total_revenue ds shortage sol = Some r_short ∧
     total_revenue ds markdown sol = Some r_mark ∧
     (r_short <= r_mark)%Q).
Proof.
  intros ds sol.
  assert (Hp : nonneg_prices ds)
    by (repeat constructor; unfold Qle; simpl; lia).
  assert (Hk : lands_known ds sol)
    by (repeat constructor; vm_compute; eauto).
  split; [exact Hp|]. split; [exact Hk|].
  exact (C3_markdown_revenue_ge_shortage ds sol Hp Hk).
Defined.

Lemma C5_zero_penalty_witness :
  uniform_horizon 1 paired_plan ∧
  concentration_penalty paired_plan = Some 0 ∧
  validate_concentration paired_plan 2 = true.
Proof.
  assert (Hz : concentration_penalty paired_plan = Some 0) by (vm_compute; reflexivity).
  split; [apply paired_plan_horizon|]. split; [exact Hz|].
  exact (C5_zero_penalty_implies_validator 1 paired_plan (proj1 paired_plan_horizon) Hz).
Defined.

Lemma C6_concentration_witness :
  paired_plan ≠ [] ∧ uniform_horizon 1 paired_plan ∧ years_in_range 1 paired_plan ∧
  (concentration_penalty paired_plan = Some 0 ↔
   ∀ year s c (X : gset string),
     (∀ l, l ∈ X ↔ grows paired_plan l year s c) → X ≠ ∅ → (2 ≤ size X ≤ 8)%nat).
Proof.
  assert (Hne : paired_plan ≠ []) by discriminate.
  split; [exact Hne|]. split; [apply paired_plan_horizon|].
  split; [apply paired_plan_horizon|].
  exact (C6_concentration_zero_iff_bounds 1 paired_plan Hne
           (proj1 paired_plan_horizon) (proj2 paired_plan_horizon)).
Defined.

Lemma two_grain_no_legume c : ¬ legume two_grain_dataset c.
Proof.
  intros (info & Hin & Hm). simpl in Hin.
  rewrite !elem_of_cons, elem_of_nil in Hin.
  destruct Hin as [[= -> ->] | [[= -> ->] | []]]; vm_compute in Hm; discriminate.
Qed.

Lemma C7_rotation_witness :
  let ds := two_grain_dataset in
  let ym := [(0%nat, single_season wheat_cell)] in
  ("A1"%string, ym) ∈ wheat_plan ∧ no_legume_cells ds ym ∧
  validate_rotation wheat_plan (crop_info ds) 1 = Some false ∧
  rotation_penalty ds wheat_plan = 100000.
Proof.
  intros ds ym.
  assert (Hin : ("A1"%string, ym) ∈ wheat_plan) by left.
  assert (Hno : no_legume_cells ds ym) by (intros year s cl _; apply two_grain_no_legume).
  split; [exact Hin|]. split; [exact Hno|].
  destruct (C7_rotation_violation ds wheat_plan 1 "A1" ym Hin Hno)
    as (_ & _ & Hval & _ & Hpen & _).
  split; [|vm_compute; reflexivity].
  apply Hval. intros l ym' year s cl Hl Hc.
  apply list_elem_of_singleton in Hl as [= -> ->].
  unfold cell_at in Hc. destruct year as [|year]; [|done].
  destruct s; simpl in Hc; simplify_eq. vm_compute. eauto.
Defined.

Lemma C10_fitness_witness :
  let ds := scenario_dataset "B1" 1 "soy" in
  let sol := scenario_plan "B1" 1 "soy" in
  sol ≠ [] ∧ lands_known ds sol ∧
  (is_Some (concentration_penalty sol) ∧
   ∃ v, _calculate_fitness ds sol shortage = Some v) ∧
  _calculate_fitness ds [] shortage = None.
Proof.
  intros ds sol.
  assert (Hne : sol ≠ []) by discriminate.
  assert (Hk : lands_known ds sol) by (repeat constructor; vm_compute; eauto).
  split; [exact Hne|]. split; [exact Hk|].
  exact (C10_fitness_total_on_nonempty ds sol shortage Hne Hk).
Defined.

(** * Further properties *)

(** ** Penalties are charges *)

Lemma sum_Z_nonneg (l : list Z) : Forall (λ x, 0 ≤ x) l → 0 ≤ sum_Z l.
Proof. intros H. by apply sum_Z_zero. Qed.

Lemma sum_Q_nonneg (l : list Q) : Forall (λ x, (0 <= x)%Q) l → (0 <= sum_Q l)%Q.
Proof.
  induction 1 as [|x l Hx _ IH]; [apply Qle_refl|].
  rewrite sum_Q_cons. lra.
Qed.

Lemma rotation_penalty_nonneg ds sol : 0 ≤ rotation_penalty ds sol.
Proof.
  apply sum_Z_nonneg, Forall_fmap, Forall_forall. intros p _. simpl.
  destruct (bean_planted ds p.2); lia.
Qed.

Lemma replant_scan_nonneg prev cells : 0 ≤ replant_scan prev cells.
Proof.
  revert prev. induction cells as [|c cells IH]; intros prev; simpl; [done|].
  specialize (IH (Some (crop_id c))). case_decide; lia.
Qed.

Lemma replant_penalty_nonneg sol : 0 ≤ replant_penalty sol.
Proof.
  apply sum_Z_nonneg, Forall_fmap, Forall_forall. intros p _. simpl.
  apply replant_scan_nonneg.
Qed.

Lemma concentration_penalty_nonneg sol conc :
  concentration_penalty sol = Some conc → 0 ≤ conc.
Proof.
  destruct sol as [|[l0 ym0] sol]; [done|]. intros [= <-].
  apply sum_Z_nonneg, Forall_forall.
  intros x (year & Hx & _)%list_elem_of_bind.
  rewrite !elem_of_cons, elem_of_nil in Hx.
  destruct Hx as [-> | [-> | [-> | []]]]; apply stratum_penalty_zero.
Qed.

Lemma min_area_term_nonneg c : (0 <= min_area_term c)%Q.
Proof.
  unfold min_area_term. destruct (Qltb (area c) (1 # 2)) eqn:E; [|apply Qle_refl].
  apply Qltb_true in E. lra.
Qed.

Lemma min_area_penalty_nonneg sol : (0 <= min_area_penalty sol)%Q.
Proof.
  apply sum_Q_nonneg, Forall_fmap, Forall_forall. intros p _.
  apply min_area_term_nonneg.
Qed.

Lemma constraint_penalty_nonneg ds sol penalty :
  _calculate_constraint_penalty ds sol = Some penalty → (0 <= penalty)%Q.
Proof.
  unfold _calculate_constraint_penalty.
  destruct (concentration_penalty sol) as [conc|] eqn:Ec; simpl; [|done].
  intros [= <-].
  pose proof (rotation_penalty_nonneg ds sol).
  pose proof (replant_penalty_nonneg sol).
  pose proof (concentration_penalty_nonneg _ _ Ec).
  pose proof (min_area_penalty_nonneg sol).
  assert (0 <= inject_Z (rotation_penalty ds sol + replant_penalty sol + conc))%Q.
  { change 0%Q with (inject_Z 0). rewrite <- Zle_Qle. lia. }
  lra.
Qed.

(** X1: whenever the evaluator returns, the penalty it subtracted is
    non-negative, so the fitness never exceeds the plan's profit. *)
Theorem fitness_le_profit (ds : dataset) (sol : plan) (scenario : Z) (v : Q) :
  _calculate_fitness ds sol scenario = Some v →
  ∃ profit penalty,
    total_profit ds scenario sol = Some profit ∧
    _calculate_constraint_penalty ds sol = Some penalty ∧
    (0 <= penalty)%Q ∧ (v <= profit)%Q.
Proof.
  unfold _calculate_fitness.
  destruct (total_profit ds scenario sol) as [profit|]; simpl; [|done].
  destruct (_calculate_constraint_penalty ds sol) as [penalty|] eqn:E; simpl; [|done].
  intros [= <-]. exists profit, penalty.
  pose proof (constraint_penalty_nonneg _ _ _ E).
  repeat split; try done. lra.
Qed.

(** ** Scenarios *)

Lemma plan_sum_ext ds f g sol :
  (∀ lt s c, f lt s c = g lt s c) → plan_sum ds f sol = plan_sum ds g sol.
Proof.
  intros Hfg. induction sol as [|[land_name ym] sol IH]; simpl; [done|].
  destruct (dict_get land_name (land_info ds)) as [info|]; simpl; [|done].
  rewrite IH. destruct (plan_sum ds g sol) as [r|]; simpl; [|done].
  do 2 f_equal. unfold plot_sum. f_equal.
  apply list_fmap_ext. intros _ [s c] _. apply Hfg.
Qed.

Lemma cell_revenue_not_shortage ds scenario c st :
  scenario ≠ 1 → cell_revenue ds scenario c st = cell_revenue ds markdown c st.
Proof.
  intros Hne. unfold cell_revenue, markdown.
  destruct (dict_get (crop_id c) (expected_sales ds)); [|done].
  rewrite !decide_False by done. done.
Qed.

(** X2: every scenario code other than 1 is evaluated as the markdown
    scenario. *)
Theorem fitness_scenario_not_shortage (ds : dataset) (sol : plan) (scenario : Z) :
  scenario ≠ 1 →
  _calculate_fitness ds sol scenario = _calculate_fitness ds sol markdown.
Proof.
  intros Hne. unfold _calculate_fitness, total_profit.
  rewrite (plan_sum_ext ds (cell_profit ds scenario) (cell_profit ds markdown)); [done|].
  intros lt s c. unfold cell_profit.
  destruct (dict_get (crop_id c, lt, s) (stats_info ds)); [|done].
  by rewrite cell_revenue_not_shortage.
Qed.

Lemma sum_Q_eq {A} (f g : A → Q) (l : list A) :
  (∀ x, x ∈ l → (f x == g x)%Q) → (sum_Q (f <$> l) == sum_Q (g <$> l))%Q.
Proof.
  induction l as [|x l IH]; intros H; rewrite ?fmap_cons, ?sum_Q_cons.
  - reflexivity.
  - assert (f x == g x)%Q by (apply H; left).
    assert (sum_Q (f <$> l) == sum_Q (g <$> l))%Q by (apply IH; intros; apply H; by right).
    lra.
Qed.

Lemma plan_sum_agree ds f g sol a b :
  (∀ land_name ym info s c,
     (land_name, ym) ∈ sol → dict_get land_name (land_info ds) = Some info →
     (s, c) ∈ plot_cells ym → (f (l_type info) s c == g (l_type info) s c)%Q) →
  plan_sum ds f sol = Some a → plan_sum ds g sol = Some b → (a == b)%Q.
Proof.
  revert a b. induction sol as [|[land_name ym] sol IH]; simpl; intros a b Hfg Ha Hb.
  - simplify_eq. reflexivity.
  - destruct (dict_get land_name (land_info ds)) as [info|] eqn:E; simpl in *; [|done].
    destruct (plan_sum ds f sol) as [a'|]; simpl in *; [|done].
    destruct (plan_sum ds g sol) as [b'|]; simpl in *; [|done].
    simplify_eq.
    assert (a' == b')%Q.
    { apply IH; [|done..]. intros ??????. apply Hfg. by right. }
    assert (plot_sum (f (l_type info)) ym == plot_sum (g (l_type info)) ym)%Q.
    { unfold plot_sum. apply sum_Q_eq. intros [s c] Hin. simpl.
      eapply Hfg; [left | done | done]. }
    lra.
Qed.

Lemma py_max_0_nonpos (x : Q) : (x <= 0)%Q → py_max 0 x = 0%Q.
Proof.
  intros Hx. unfold py_max. destruct (Qltb 0 x) eqn:E; [|done].
  apply Qltb_true in E. lra.
Qed.

(** X3: when no costable cell yields more than its crop's expected sales,
    the two scenarios give the same fitness. *)
Theorem fitness_scenario_free_without_excess (ds : dataset) (sol : plan)
    (s1 s2 : Z) (v1 v2 : Q) :
  no_excess ds sol →
  _calculate_fitness ds sol s1 = Some v1 →
  _calculate_fitness ds sol s2 = Some v2 →
  (v1 == v2)%Q.
Proof.
  intros Hno. unfold _calculate_fitness.
  destruct (total_profit ds s1 sol) as [p1|] eqn:E1; simpl; [|done].
  destruct (total_profit ds s2 sol) as [p2|] eqn:E2; simpl; [|done].
  destruct (_calculate_constraint_penalty ds sol) as [pen|]; simpl; [|done].
  intros [= <-] [= <-].
  assert (p1 == p2)%Q; [|lra].
  eapply plan_sum_agree; [|exact E1|exact E2].
  intros land_name ym info s c Hin Hinfo Hc. unfold cell_profit.
  destruct (dict_get (crop_id c, l_type info, s) (stats_info ds)) as [st|] eqn:Est;
    [|reflexivity].
  assert (∀ sc, cell_revenue ds sc c st ==
                match dict_get (crop_id c) (expected_sales ds) with
                | Some expected =>
                    py_min (yield_per_mu st * area c) expected * mean_price st
                | None => yield_per_mu st * area c * mean_price st
                end)%Q as Hrev.
  { intros sc. unfold cell_revenue.
    destruct (dict_get (crop_id c) (expected_sales ds)) as [expected|] eqn:Ee;
      [|reflexivity].
    case_decide; [reflexivity|].
    rewrite py_max_0_nonpos.
    - lra.
    - pose proof (Hno _ _ _ _ _ _ _ Hin Hinfo Hc Est Ee). lra. }
  rewrite (Hrev s1), (Hrev s2). reflexivity.
Qed.

(** ** The replant validator *)

Lemma replant_scan_zero prev cells :
  replant_scan prev cells = 0 ↔ no_replant_scan prev cells = true.
Proof.
  revert prev. induction cells as [|c cells IH]; intros prev; simpl; [done|].
  pose proof (replant_scan_nonneg (Some (crop_id c)) cells).
  case_decide.
  - split; [lia | done].
  - rewrite <- IH. lia.
Qed.

(** X4: [validate_no_replant] passes exactly when the replant rule of the
    penalty charges nothing. *)
Theorem validate_no_replant_iff_no_charge (sol : plan) :
  validate_no_replant sol = true ↔ replant_penalty sol = 0.
Proof.
  unfold validate_no_replant, replant_penalty.
  induction sol as [|p sol IH]; [done|].
  rewrite fmap_cons. cbn [forallb sum_Z foldr].
  fold (sum_Z ((λ p, replant_scan None (cells_in_order p.2 (length p.2))) <$> sol)).
  pose proof (replant_scan_nonneg None (cells_in_order p.2 (length p.2))).
  pose proof (replant_penalty_nonneg sol) as Hs. unfold replant_penalty in Hs.
  rewrite andb_true_iff, IH, <- replant_scan_zero. lia.
Qed.

(** ** Dictionaries with distinct keys *)

Lemma dict_get_NoDup {K V} `{EqDecision K} (k : K) (v : V) d :
  NoDup d.*1 → (k, v) ∈ d → dict_get k d = Some v.
Proof.
  induction d as [|[k' v'] d IH]; simpl; intros Hnd Hin; [by apply elem_of_nil in Hin|].
  apply NoDup_cons in Hnd as [Hk' Hnd].
  apply elem_of_cons in Hin as [[= -> ->]|Hin].
  - by rewrite decide_True.
  - rewrite decide_False; [by apply IH|].
    intros ->. apply Hk'. apply list_elem_of_fmap. by exists (k', v).
Qed.

Lemma plan_shape_horizon H sol :
  plan_shape H sol → uniform_horizon H sol ∧ years_in_range H sol.
Proof.
  intros Hs. unfold uniform_horizon, years_in_range.
  split; eapply Forall_impl; try exact Hs; intros [l ym] Hym; simpl in *.
  - by rewrite <- (length_fmap fst), Hym, length_seq.
  - apply Forall_forall. intros [y sc] Hin. simpl.
    assert (y ∈ ym.*1) as Hy by (apply list_elem_of_fmap; by exists (y, sc)).
    rewrite Hym in Hy. apply elem_of_seq in Hy. lia.
Qed.

(** With the years [0 .. H-1] as keys, the cells the fitness loop visits
    are the cells the range scans find. *)
Lemma plot_cells_scanned (H : nat) (ym : yearmap) s c :
  ym.*1 = seq 0 H →
  (s, c) ∈ plot_cells ym ↔ c ∈ cells_in_order ym (length ym) ∧
                            ∃ year, cell_at ym year s = Some c.
Proof.
  intros Hk.
  assert (Hnd : NoDup ym.*1) by (rewrite Hk; apply NoDup_seq).
  assert (Hlen : length ym = H) by (by rewrite <- (length_fmap fst), Hk, length_seq).
  unfold plot_cells. rewrite list_elem_of_bind. split.
  - intros ([year sc] & Hc & Hin). simpl in Hc.
    apply list_elem_of_omap in Hc as (s' & _ & Hs').
    destruct (season_get s' sc) as [c'|] eqn:E; simplify_eq/=.
    assert (cell_at ym year s = Some c) as Hat.
    { unfold cell_at. by rewrite (dict_get_NoDup _ _ _ Hnd Hin). }
    split; [|eauto]. apply elem_of_cells_in_order. exists year, s. split; [|done].
    assert (year ∈ ym.*1) as Hy by (apply list_elem_of_fmap; by exists (year, sc)).
    rewrite Hk in Hy. apply elem_of_seq in Hy. lia.
  - intros [_ (year & Hat)]. unfold cell_at in Hat.
    destruct (dict_get year ym) as [sc|] eqn:E; simpl in Hat; [|done].
    exists (year, sc). split; [|by apply dict_get_elem]. simpl.
    apply list_elem_of_omap. exists s. split; [destruct s; set_solver|].
    by rewrite Hat.
Qed.

Lemma sum_Q_zero (l : list Q) :
  Forall (λ x, (0 <= x)%Q) l → (sum_Q l == 0)%Q ↔ Forall (λ x, (x == 0)%Q) l.
Proof.
  induction 1 as [|x l Hx Hl IH]; [split; [constructor | reflexivity]|].
  rewrite sum_Q_cons, Forall_cons, <- IH.
  pose proof (sum_Q_nonneg l Hl). split; [intros; split; lra | intros []; lra].
Qed.

Lemma min_area_term_zero c : (min_area_term c == 0)%Q ↔ Qltb (area c) (1 # 2) = false.
Proof.
  unfold min_area_term. destruct (Qltb (area c) (1 # 2)) eqn:E; [|done].
  apply Qltb_true in E. split; [intros; lra | done].
Qed.

Lemma min_area_penalty_zero sol :
  (min_area_penalty sol == 0)%Q ↔
  ∀ l ym s c, (l, ym) ∈ sol → (s, c) ∈ plot_cells ym → Qltb (area c) (1 # 2) = false.
Proof.
  unfold min_area_penalty. rewrite sum_Q_zero.
  2:{ apply Forall_fmap, Forall_forall. intros p _. apply min_area_term_nonneg. }
  rewrite Forall_fmap, Forall_forall. split.
  - intros Hz l ym s c Hin Hc. apply min_area_term_zero.
    apply (Hz (s, c)). apply list_elem_of_bind. by exists (l, ym).
  - intros Hz [s c] ([l ym] & Hc & Hin)%list_elem_of_bind. simpl.
    apply min_area_term_zero. eauto.
Qed.

Lemma validate_min_area_true sol min_area :
  validate_min_area sol min_area = true ↔
  ∀ l ym c, (l, ym) ∈ sol → c ∈ cells_in_order ym (length ym) →
            Qltb (area c) min_area = false.
Proof.
  unfold validate_min_area. rewrite forallb_forall. split.
  - intros Hv l ym c Hin Hc.
    specialize (Hv (l, ym) (proj1 (list_elem_of_In _ _) Hin)). simpl in Hv.
    rewrite forallb_forall in Hv. apply negb_true_iff, Hv. by apply list_elem_of_In.
  - intros Hv [l ym] Hin%list_elem_of_In. simpl. apply forallb_forall.
    intros c Hc%list_elem_of_In. apply negb_true_iff. eauto.
Qed.

Lemma min_area_free_validates sol :
  (min_area_penalty sol == 0)%Q → validate_min_area sol (1 # 2) = true.
Proof.
  rewrite min_area_penalty_zero, validate_min_area_true.
  intros Hz l ym c Hin (year & s & _ & Hat)%elem_of_cells_in_order.
  apply (Hz l ym s c Hin). unfold cell_at in Hat.
  destruct (dict_get year ym) as [sc|] eqn:E; simpl in Hat; [|done].
  apply list_elem_of_bind. exists (year, sc). split; [|by apply dict_get_elem].
  simpl. apply list_elem_of_omap. exists s. split; [destruct s; set_solver|].
  by rewrite Hat.
Qed.

(** X5: on a plan whose years are keyed [0 .. H-1], [validate_min_area]
    passes at the threshold 0.5 exactly when the minimum-area rule of the
    penalty charges nothing. *)
Theorem validate_min_area_iff_no_charge (H : nat) (sol : plan) :
  plan_shape H sol →
  validate_min_area sol (1 # 2) = true ↔ (min_area_penalty sol == 0)%Q.
Proof.
  intros Hs. split; [|apply min_area_free_validates].
  rewrite min_area_penalty_zero, validate_min_area_true.
  intros Hv l ym s c Hin Hc.
  unfold plan_shape in Hs. rewrite Forall_forall in Hs.
  apply (plot_cells_scanned H) in Hc as [Hc _]; [|by apply (Hs (l, ym))].
  eauto.
Qed.

(** ** The rotation validator against the penalty *)

Lemma rotation_scan_true ds cells :
  rotation_scan (crop_info ds) cells = Some true →
  ∃ c, c ∈ cells ∧ legume ds (crop_id c).
Proof.
  induction cells as [|c cells IH]; simpl; [done|].
  destruct (dict_get (crop_id c) (crop_info ds)) as [info|] eqn:E; simpl; [|done].
  destruct (validator_bean info) eqn:Hv.
  - intros _. exists c. split; [left|]. exists info.
    split; [by apply dict_get_elem | by apply validator_bean_marker].
  - intros (c' & Hin & Hleg)%IH. exists c'. split; [by right | done].
Qed.

Lemma validate_rotation_true ds sol years :
  validate_rotation sol (crop_info ds) years = Some true →
  Forall (λ p, rotation_scan (crop_info ds) (cells_in_order p.2 years) = Some true) sol.
Proof.
  induction sol as [|[l ym] sol IH]; simpl; [constructor|].
  destruct (rotation_scan (crop_info ds) (cells_in_order ym years)) as [[]|] eqn:E;
    simpl; try done.
  intros Hrest. constructor; [done | by apply IH].
Qed.

(** X6: when [validate_rotation] passes for the horizon every plot has, the
    rotation rule of the penalty charges nothing. *)
Theorem validate_rotation_implies_no_charge (ds : dataset) (sol : plan) (years : nat) :
  uniform_horizon years sol →
  validate_rotation sol (crop_info ds) years = Some true →
  rotation_penalty ds sol = 0.
Proof.
  intros Hu Hv%validate_rotation_true.
  unfold uniform_horizon in Hu. rewrite Forall_forall in Hu, Hv.
  unfold rotation_penalty. apply sum_Z_zero.
  - apply Forall_fmap, Forall_forall. intros p _. simpl.
    destruct (bean_planted ds p.2); lia.
  - apply Forall_fmap, Forall_forall. intros [l ym] Hin. simpl.
    destruct (bean_planted ds ym) eqn:Hb; [done|]. exfalso.
    pose proof (Hv _ Hin) as (c & Hc & Hleg)%rotation_scan_true. simpl in Hc.
    rewrite <- (Hu _ Hin) in Hc. simpl in Hc.
    apply elem_of_cells_in_order in Hc as (year & s & Hy & Hat).
    rewrite bean_planted_false_iff in Hb. by eapply Hb.
Qed.

(** ** What the concentration validator counts *)

(** X7: [validate_concentration] passes exactly when every crop grown
    somewhere in the plan is grown, over all years and seasons together,
    on at least [min_plots] distinct plots. *)
Theorem validate_concentration_pooled (sol : plan) (min_plots : nat) :
  validate_concentration sol min_plots = true ↔
  ∀ c (X : gset string),
    (∀ l, l ∈ X ↔ grows_somewhere sol l c) → X ≠ ∅ → (min_plots ≤ size X)%nat.
Proof.
  rewrite validate_concentration_true. split.
  - intros Hv c X HX Hne. apply (Hv c). apply crop_distribution_lookup.
    split; [done|]. intros l. rewrite HX, elem_of_plan_entries.
    unfold grows_somewhere. naive_solver.
  - intros Hv c X [Hne HX]%crop_distribution_lookup. apply (Hv c); [|done].
    intros l. rewrite HX, elem_of_plan_entries.
    unfold grows_somewhere. naive_solver.
Qed.

(** ** Where the generator's crops come from *)

Lemma dict_get_key {K V} `{EqDecision K} (k : K) (d : list (K * V)) :
  k ∈ dict_keys d → is_Some (dict_get k d).
Proof.
  unfold dict_keys. induction d as [|[k' v'] d IH]; simpl.
  - by intros ?%elem_of_nil.
  - intros [->|Hin]%elem_of_cons; case_decide; eauto; done.
Qed.

Lemma key_listed ci c a : c ∈ dict_keys ci → crop_listed ci (mk_cell ci c a).
Proof.
  intros [info Hi]%dict_get_key. exists info. split; [done|].
  simpl. unfold crop_name_of. by rewrite Hi.
Qed.

Lemma member_listed ci c a : dict_mem c ci = true → crop_listed ci (mk_cell ci c a).
Proof.
  unfold dict_mem. destruct (dict_get c ci) as [info|] eqn:E; [|done].
  intros _. exists info. split; [done|]. simpl. unfold crop_name_of. by rewrite E.
Qed.

Lemma grain_crop_sourced ci c a :
  c ∈ grain_crops ci →
  crop_listed ci (mk_cell ci c a) ∧ contains grain_marker (crop_type_of ci c) = true.
Proof.
  intros [Hg Hk]%list_elem_of_filter. split; [by apply key_listed | done].
Qed.

Lemma veg_crop_sourced ci c a :
  c ∈ veg_crops ci → crop_listed ci (mk_cell ci c a) ∧ is_vegetable ci (mk_cell ci c a).
Proof.
  intros [Hv Hk]%list_elem_of_filter. split; [by apply key_listed | done].
Qed.

Lemma second_crop_sourced ci c a :
  c ∈ second_crops ci → crop_listed ci (mk_cell ci c a) ∧ c ∈ root_set.
Proof.
  intros [Hm Hr]%list_elem_of_filter. split; [by apply member_listed | done].
Qed.

Lemma mushroom_crop_sourced ci c a :
  c ∈ mushroom_crops ci → crop_listed ci (mk_cell ci c a) ∧ c ∈ fungus_set.
Proof.
  intros [Hm Hr]%list_elem_of_filter. split; [by apply member_listed | done].
Qed.

Lemma year_sourced_no_cells ci lt : year_sourced ci lt no_cells.
Proof. by intros []. Qed.

Lemma year_sourced_set ci lt s c sc :
  cell_sourced ci lt s c → year_sourced ci lt sc →
  year_sourced ci lt (season_set s c sc).
Proof.
  intros Hc Hsc s' c'.
  destruct s, s'; simpl; intros Heq; simplify_eq; try done;
    first [exact (Hsc Single _ Heq) | exact (Hsc First _ Heq) | exact (Hsc Second _ Heq)].
Qed.

(** [plant] keeps a sourced year sourced when its candidates are. *)
Lemma plant_sourced ci lt s cands a sc t :
  (∀ c, c ∈ cands → cell_sourced ci lt s (mk_cell ci c a)) →
  year_sourced ci lt sc → year_sourced ci lt (plant ci s cands a sc t).1.
Proof.
  intros Hc Hsc. destruct (plant_cases ci s cands a sc t) as [-> | (c & Hin & ->)];
    [done|]. apply year_sourced_set; auto.
Qed.

Lemma regenerate_sourced ci lt a t : year_sourced ci lt (regenerate ci lt a t).1.
Proof.
  destruct lt; unfold regenerate, rand_bind, rand_ret.
  1-3: apply plant_sourced; [|apply year_sourced_no_cells];
       intros c Hc; by apply grain_crop_sourced.
  - destruct (coin t) as [[] t1]; simpl fst.
    + intros [] c; simpl; intros; by simplify_eq.
    + pose proof (plant_sourced ci Irrigated First (veg_crops ci) a no_cells t1) as H1.
      destruct (plant ci First (veg_crops ci) a no_cells t1) as [sc1 t2]. simpl fst in *.
      apply plant_sourced.
      * intros c Hc. by apply second_crop_sourced.
      * apply H1; [|apply year_sourced_no_cells]. intros c Hc. by apply veg_crop_sourced.
  - pose proof (plant_sourced ci Greenhouse First (veg_crops ci) a no_cells t) as H1.
    destruct (plant ci First (veg_crops ci) a no_cells t) as [sc1 t2]. simpl fst in *.
    apply plant_sourced.
    + intros c Hc. by apply mushroom_crop_sourced.
    + apply H1; [|apply year_sourced_no_cells]. intros c Hc. by apply veg_crop_sourced.
  - pose proof (plant_sourced ci SmartGreenhouse First (veg_crops ci) a no_cells t) as H1.
    destruct (plant ci First (veg_crops ci) a no_cells t) as [sc1 t2]. simpl fst in *.
    apply plant_sourced.
    + intros c Hc. by apply veg_crop_sourced.
    + apply H1; [|apply year_sourced_no_cells]. intros c Hc. by apply veg_crop_sourced.
  - apply year_sourced_no_cells.
Qed.

Lemma gen_years_Forall ci lt a (P : nat * season_cells → Prop) years ym t :
  (∀ year t', P (year, (regenerate ci lt a t').1)) →
  Forall P ym → Forall P (gen_years ci lt a years ym t).1.
Proof.
  intros HP. revert ym t. induction years as [|year later IH]; intros ym t Hym; [done|].
  simpl. unfold rand_bind.
  pose proof (HP year t) as Hsc.
  destruct (regenerate ci lt a t) as [sc t1]. simpl fst in Hsc.
  apply IH. by apply dict_set_Forall.
Qed.

Lemma gen_lands_Forall ds years (P : string * yearmap → Prop) lands solution t :
  (∀ land_name info t',
     dict_get land_name (land_info ds) = Some info →
     P (land_name, (gen_years (crop_info ds) (l_type info) (l_area info)
                      (seq 0 years) [] t').1)) →
  Forall P solution → Forall P (gen_lands ds years lands solution t).1.
Proof.
  intros HP. revert solution t.
  induction lands as [|land_name later IH]; intros solution t Hs; [done|].
  simpl. destruct (dict_get land_name (land_info ds)) as [info|] eqn:E; [|by apply IH].
  unfold rand_bind. pose proof (HP land_name info t E) as Hym.
  destruct (gen_years _ _ _ _ _ t) as [ym t1]. simpl fst in Hym.
  apply IH. by apply dict_set_Forall.
Qed.

Lemma gen_lands_sourced ds years lands solution t :
  Forall (plot_sourced ds) solution →
  Forall (plot_sourced ds) (gen_lands ds years lands solution t).1.
Proof.
  apply gen_lands_Forall.
  intros land_name info t' Hinfo. exists info. split; [done|]. simpl.
  apply (gen_years_Forall _ _ _ (λ e, year_sourced (crop_info ds) (l_type info) e.2));
    [|constructor].
  intros year t''. apply regenerate_sourced.
Qed.

(** X8: in every generated plan each cell other than the irrigated
    single-season rice cell names a crop of the crop table, carries the
    table's name for it, and comes from the candidate list of its land type
    and season. *)
Theorem generated_cells_sourced (ds : dataset) (years : nat) (t : tape) :
  Forall (plot_sourced ds) (_generate_initial_solution ds years t).1.
Proof. apply gen_lands_sourced. constructor. Qed.

(** ** The shape of a generated plan *)

Lemma gen_lands_plots ds years lands solution t :
  NoDup (solution.*1 ++ lands) →
  (∀ l, l ∈ lands → is_Some (dict_get l (land_info ds))) →
  (gen_lands ds years lands solution t).1.*1 = solution.*1 ++ lands.
Proof.
  revert solution t. induction lands as [|land_name later IH]; intros solution t Hnd Hk.
  - simpl. by rewrite app_nil_r.
  - simpl. destruct (Hk land_name) as [info ->]; [left|].
    unfold rand_bind. destruct (gen_years _ _ _ _ _ t) as [ym t1].
    rewrite IH.
    + rewrite dict_set_fresh.
      * rewrite fmap_app. simpl. by rewrite <- app_assoc.
      * apply NoDup_app in Hnd as (_ & Hd & _). intros Hin. apply (Hd _ Hin). left.
    + rewrite dict_set_fresh.
      * rewrite fmap_app. simpl. by rewrite <- app_assoc.
      * apply NoDup_app in Hnd as (_ & Hd & _). intros Hin. apply (Hd _ Hin). left.
    + intros l Hl. apply Hk. by right.
Qed.

(** X9: a generated plan has one plot per plot of the land table, in the
    table's order, and each plot has exactly the years [0 .. years-1]. *)
Theorem generated_plan_shape (ds : dataset) (years : nat) (t : tape) :
  NoDup (dict_keys (land_info ds)) →
  (_generate_initial_solution ds years t).1.*1 = dict_keys (land_info ds) ∧
  plan_shape years (_generate_initial_solution ds years t).1.
Proof.
  intros Hnd. split.
  - unfold _generate_initial_solution. rewrite gen_lands_plots; [done|done|].
    intros l Hl. by apply dict_get_key.
  - apply gen_lands_keys. constructor.
Qed.

(** ** The local search works in place *)

Lemma randint_below_lt n t year t' :
  randint_below n t = (Some year, t') → (year < n)%nat.
Proof.
  destruct n as [|n]; [done|]. unfold randint_below, rand_bind, rand_ret.
  destruct (draw t) as [r t1]. intros Heq.
  assert (year = r mod S n)%nat as -> by (by inversion Heq).
  by apply Nat.mod_upper_bound.
Qed.

(** What one trial does to the state, whether it is accepted or not. *)
Lemma try_land_cases ds scenario land_name st st' :
  try_land ds scenario land_name st = Some st' →
  ∃ a ym year info t,
    dict_get land_name (best_solution st) = Some a ∧
    ss_heap st !! a = Some ym ∧ (year < length ym)%nat ∧
    dict_get land_name (land_info ds) = Some info ∧
    ss_heap st' =
      <[a := dict_set year
               (regenerate (crop_info ds) (l_type info) (l_area info) t).1 ym]>
        (ss_heap st) ∧
    best_solution st' = best_solution st ∧
    (best_fitness st <= best_fitness st')%Q.
Proof.
  unfold try_land, shallow_copy.
  destruct (dict_get land_name (best_solution st)) as [a|] eqn:Ea; simpl; [|done].
  destruct (ss_heap st !! a) as [ym|] eqn:Eh; simpl; [|done].
  destruct (randint_below (length ym) (ss_tape st)) as [[year|] t1] eqn:Er; simpl; [|done].
  destruct (dict_get land_name (land_info ds)) as [info|] eqn:Ei; simpl; [|done].
  destruct (regenerate (crop_info ds) (l_type info) (l_area info) t1) as [sc t2] eqn:Eg.
  destruct (deref _ _) as [candidate|]; simpl; [|done].
  destruct (_calculate_fitness ds candidate scenario) as [new_fitness|]; simpl; [|done].
  apply randint_below_lt in Er.
  destruct (Qltb (best_fitness st) new_fitness) eqn:Eq; intros [= <-]; simpl;
    exists a, ym, year, info, t1; rewrite Eg; repeat split; try done.
  - apply Qltb_true in Eq. lra.
  - apply Qle_refl.
Qed.

Section SearchInvariant.
Variables (ds : dataset) (scenario : Z) (P : string → yearmap → Prop).
Hypothesis P_regenerate : ∀ land_name info ym year t,
  dict_get land_name (land_info ds) = Some info → P land_name ym →
  (year < length ym)%nat →
  P land_name
    (dict_set year (regenerate (crop_info ds) (l_type info) (l_area info) t).1 ym).

Lemma try_land_ok land_name st st' :
  store_ok P (ss_heap st) (best_solution st) →
  try_land ds scenario land_name st = Some st' →
  best_solution st' = best_solution st ∧
  store_ok P (ss_heap st') (best_solution st') ∧
  (best_fitness st <= best_fitness st')%Q.
Proof.
  intros [Hnd Hall] (a & ym & year & info & t & Ha & Hh & Hy & Hi & -> & -> & Hf)%try_land_cases.
  split; [done|]. split; [|done]. split; [done|].
  rewrite Forall_forall in Hall. apply Forall_forall. intros [l b] Hin. simpl.
  destruct (Hall _ Hin) as (ym' & Hb & HP). simpl in *.
  destruct (decide (b = a)) as [->|Hne].
  - assert (l = land_name) as ->.
    { apply dict_get_elem in Ha.
      apply list_elem_of_lookup in Hin as [i Hi'], Ha as [j Hj].
      assert (i = j) as ->.
      { eapply NoDup_lookup; [exact Hnd| |];
          rewrite list_lookup_fmap; [rewrite Hi' | rewrite Hj]; done. }
      congruence. }
    eexists. split.
    + apply list_lookup_insert_eq. by eapply lookup_lt_Some.
    + assert (ym' = ym) as -> by congruence. by apply P_regenerate.
  - exists ym'. split; [|done]. by rewrite list_lookup_insert_ne.
Qed.

Lemma try_lands_ok lands st st' :
  store_ok P (ss_heap st) (best_solution st) →
  try_lands ds scenario lands st = Some st' →
  best_solution st' = best_solution st ∧
  store_ok P (ss_heap st') (best_solution st') ∧
  (best_fitness st <= best_fitness st')%Q.
Proof.
  revert st. induction lands as [|land_name later IH]; intros st Hok; simpl.
  - intros [= <-]. split; [done|]. split; [done | apply Qle_refl].
  - destruct (try_land ds scenario land_name st) as [st1|] eqn:E; simpl; [|done].
    destruct (try_land_ok _ _ _ Hok E) as (Hb & Hok1 & Hf).
    destruct (improved st1).
    + intros [= <-]. done.
    + intros Hrest. destruct (IH _ Hok1 Hrest) as (Hb' & Hok' & Hf').
      split; [congruence|]. split; [done | lra].
Qed.

Lemma search_loop_ok fuel st st' :
  store_ok P (ss_heap st) (best_solution st) →
  search_loop ds scenario fuel st = Some st' →
  best_solution st' = best_solution st ∧
  store_ok P (ss_heap st') (best_solution st') ∧
  (best_fitness st <= best_fitness st')%Q.
Proof.
  revert st. induction fuel as [|fuel IH]; intros st Hok; simpl.
  - intros [= <-]. split; [done|]. split; [done | apply Qle_refl].
  - destruct (improved st); [|intros [= <-]; split; [done|]; split; [done | apply Qle_refl]].
    destruct (sample _ _ _) as [lands t'].
    destruct (try_lands _ _ _ _) as [st1|] eqn:E; simpl; [|done].
    apply try_lands_ok in E as (Hb & Hok1 & Hf); [|exact Hok]. simpl in *.
    intros Hrest. destruct (IH _ Hok1 Hrest) as (Hb' & Hok' & Hf').
    split; [congruence|]. split; [done | lra].
Qed.

Lemma local_search_ok cap h p t h' out :
  store_ok P h p →
  local_search cap ds h p scenario t = Some (h', out) →
  out = p ∧ store_ok P h' out.
Proof.
  intros Hok. unfold local_search, shallow_copy.
  destruct (deref h p) as [start|]; simpl; [|done].
  destruct (_calculate_fitness ds start scenario) as [fit|]; simpl; [|done].
  destruct (search_loop _ _ _ _) as [st|] eqn:E; simpl; [|done].
  intros [= <- <-].
  apply search_loop_ok in E as (Hb & Hok' & _); [|exact Hok]. simpl in *. done.
Qed.

End SearchInvariant.

(** ** Stores and the plans they denote *)

Lemma store_plan_ok (P : string → yearmap → Prop) (sol : plan) :
  Forall (λ q, P q.1 q.2) sol → store_ok P (store_plan sol).1 (store_plan sol).2.
Proof.
  intros HP. unfold store_plan, store_ok. simpl. split.
  - rewrite snd_zip; [apply NoDup_seq|]. by rewrite length_seq, length_fmap.
  - apply Forall_forall. intros [l a] [i Hi]%list_elem_of_lookup. simpl.
    apply lookup_zip_with_Some in Hi as (l' & a' & [= <- <-] & Hl & Ha).
    apply lookup_seq in Ha as [-> _].
    rewrite list_lookup_fmap in Hl.
    destruct (sol !! i) as [[l0 ym]|] eqn:E; simplify_eq/=.
    exists ym. split; [by rewrite list_lookup_fmap, E|].
    rewrite Forall_forall in HP. apply (HP (l, ym)). by eapply list_elem_of_lookup_2.
Qed.

Lemma store_ok_deref (P : string → yearmap → Prop) h p :
  store_ok P h p →
  ∃ sol, deref h p = Some sol ∧ sol.*1 = p.*1 ∧ Forall (λ q, P q.1 q.2) sol.
Proof.
  intros [_ Hall]. unfold deref. induction Hall as [|[l a] p (ym & Hh & HP) _ IH].
  - by exists [].
  - destruct IH as (sol & Hs & Hk & Hf). exists ((l, ym) :: sol).
    simpl in Hh, HP. cbn [mapM snd fst]. rewrite Hh. simpl. rewrite Hs. simpl.
    split; [done|]. split; [by f_equal | by constructor].
Qed.

Lemma dict_set_keys {K V} `{EqDecision K} (k : K) (v : V) d :
  k ∈ d.*1 → (dict_set k v d).*1 = d.*1.
Proof.
  induction d as [|[k' v'] d IH]; simpl; [by intros ?%elem_of_nil|].
  intros Hin. case_decide; simplify_eq/=; [done|].
  f_equal. apply IH. apply elem_of_cons in Hin as [|]; done.
Qed.

(** ** What the search keeps fixed *)

Lemma try_lands_frame ds scenario lands st st' :
  try_lands ds scenario lands st = Some st' →
  best_solution st' = best_solution st ∧
  length (ss_heap st') = length (ss_heap st) ∧
  (best_fitness st <= best_fitness st')%Q.
Proof.
  revert st. induction lands as [|land_name later IH]; intros st; simpl.
  - intros [= <-]. split; [done|]. split; [done | apply Qle_refl].
  - destruct (try_land ds scenario land_name st) as [st1|] eqn:E; simpl; [|done].
    apply try_land_cases in E as (a & ym & year & info & t & _ & _ & _ & _ & Hh & Hb & Hf).
    assert (length (ss_heap st1) = length (ss_heap st)) as Hl
      by (by rewrite Hh, length_insert).
    destruct (improved st1).
    + intros [= <-]. done.
    + intros (Hb' & Hl' & Hf')%IH. split; [congruence|]. split; [congruence | lra].
Qed.

Lemma search_loop_frame ds scenario fuel st st' :
  search_loop ds scenario fuel st = Some st' →
  best_solution st' = best_solution st ∧
  length (ss_heap st') = length (ss_heap st) ∧
  (best_fitness st <= best_fitness st')%Q.
Proof.
  revert st. induction fuel as [|fuel IH]; intros st; simpl.
  - intros [= <-]. split; [done|]. split; [done | apply Qle_refl].
  - destruct (improved st);
      [|intros [= <-]; split; [done|]; split; [done | apply Qle_refl]].
    destruct (sample _ _ _) as [lands t'].
    destruct (try_lands _ _ _ _) as [st1|] eqn:E; simpl; [|done].
    apply try_lands_frame in E as (Hb & Hl & Hf). simpl in *.
    intros (Hb' & Hl' & Hf')%IH. split; [congruence|]. split; [congruence | lra].
Qed.

(** X10: the dictionary the local search returns binds the caller's plots
    to the caller's own year dictionaries; no dictionary is allocated, the
    argument is rewritten in place. *)
Theorem local_search_in_place (cap : nat) (ds : dataset) (h : heap)
    (solution : pyplan) (scenario : Z) (t : tape) (h' : heap) (out : pyplan) :
  local_search cap ds h solution scenario t = Some (h', out) →
  out = solution ∧ length h' = length h.
Proof.
  unfold local_search, shallow_copy.
  destruct (deref h solution) as [start|]; simpl; [|done].
  destruct (_calculate_fitness ds start scenario) as [fit|]; simpl; [|done].
  destruct (search_loop _ _ _ _) as [st|] eqn:E; simpl; [|done].
  intros [= <- <-]. by apply search_loop_frame in E as (Hb & Hl & _).
Qed.

(** X11: the [best_fitness] the search keeps never decreases, from the
    score of the input plan to the value reported at the end. *)
Theorem search_best_fitness_monotone (ds : dataset) (scenario : Z) (fuel : nat)
    (st st' : search_state) :
  search_loop ds scenario fuel st = Some st' →
  (best_fitness st <= best_fitness st')%Q.
Proof. by intros (_ & _ & Hf)%search_loop_frame. Qed.

(** ** Invariants the search preserves *)

Lemma structural_regenerate ds land_name info ym year t :
  dict_get land_name (land_info ds) = Some info →
  plot_structural ds (land_name, ym) →
  plot_structural ds
    (land_name,
     dict_set year (regenerate (crop_info ds) (l_type info) (l_area info) t).1 ym).
Proof.
  intros Hi (info' & Hi' & Hall). simpl in *. exists info. split; [done|].
  assert (info' = info) as -> by congruence. simpl.
  apply dict_set_Forall; [|done]. apply regenerate_structural.
Qed.

Lemma shape_regenerate (H : nat) ci lt a (ym : yearmap) year t :
  ym.*1 = seq 0 H → (year < length ym)%nat →
  (dict_set year (regenerate ci lt a t).1 ym).*1 = seq 0 H.
Proof.
  intros Hk Hy. rewrite dict_set_keys; [done|].
  rewrite Hk. apply elem_of_seq.
  rewrite <- (length_fmap fst), Hk, length_seq in Hy. lia.
Qed.

(** X12: started on a plan that satisfies the structural invariant, the
    local search hands back a plan that satisfies it. *)
Theorem local_search_structural (cap : nat) (ds : dataset) (sol : plan)
    (scenario : Z) (t : tape) (h' : heap) (out : pyplan) :
  Forall (plot_structural ds) sol →
  local_search cap ds (store_plan sol).1 (store_plan sol).2 scenario t = Some (h', out) →
  ∃ sol', deref h' out = Some sol' ∧ Forall (plot_structural ds) sol'.
Proof.
  intros Hs Hrun.
  apply (local_search_ok ds scenario (λ l ym, plot_structural ds (l, ym))) in Hrun
    as [-> Hok].
  - apply store_ok_deref in Hok as (sol' & Hd & _ & Hf). exists sol'. split; [done|].
    eapply Forall_impl; [exact Hf|]. by intros [l ym].
  - intros land_name info ym year t' Hi HP _. by apply structural_regenerate.
  - apply store_plan_ok. eapply Forall_impl; [exact Hs|]. by intros [l ym].
Qed.

(** X13: the local search neither adds nor drops a plot or a year: on a
    plan whose years are keyed [0 .. H-1] the result has the same plots in
    the same order, each with the years [0 .. H-1]. *)
Theorem local_search_shape (cap : nat) (ds : dataset) (H : nat) (sol : plan)
    (scenario : Z) (t : tape) (h' : heap) (out : pyplan) :
  plan_shape H sol →
  local_search cap ds (store_plan sol).1 (store_plan sol).2 scenario t = Some (h', out) →
  ∃ sol', deref h' out = Some sol' ∧ sol'.*1 = sol.*1 ∧ plan_shape H sol'.
Proof.
  intros Hs Hrun.
  apply (local_search_ok ds scenario (λ _ ym, ym.*1 = seq 0 H)) in Hrun as [-> Hok].
  - apply store_ok_deref in Hok as (sol' & Hd & Hk & Hf). exists sol'.
    split; [done|]. split; [|done].
    rewrite Hk. unfold store_plan. simpl. apply fst_zip.
    by rewrite length_seq, length_fmap.
  - intros land_name info ym year t' _ HP Hy. by apply shape_regenerate.
  - by apply store_plan_ok.
Qed.

(** ** Multi-start *)

Lemma candidates_generated ds years n t c :
  c ∈ candidates ds years n t → ∃ t0, c = (_generate_initial_solution ds years t0).1.
Proof.
  revert t. induction n as [|n IH]; intros t; simpl; [by intros ?%elem_of_nil|].
  destruct (_generate_initial_solution ds years t) as [solution t'] eqn:E.
  intros [->|Hin]%elem_of_cons; [|by eapply IH].
  exists t. by rewrite E.
Qed.

(** The loop scores every candidate and keeps one of largest fitness. *)
Lemma multi_start_spec ds scenario years n best t r t' :
  multi_start ds scenario years n best t = Some (r, t') →
  (∀ b bf, best = Some (b, bf) → ∃ sol f, r = Some (sol, f) ∧ (bf <= f)%Q) ∧
  (∀ c, c ∈ candidates ds years n t →
     ∃ fc sol f, _calculate_fitness ds c scenario = Some fc ∧
                 r = Some (sol, f) ∧ (fc <= f)%Q) ∧
  (∀ sol f, r = Some (sol, f) →
     best = Some (sol, f) ∨
     (sol ∈ candidates ds years n t ∧ _calculate_fitness ds sol scenario = Some f)).
Proof.
  revert best t. induction n as [|n IH]; intros best t; simpl.
  - intros [= <- <-]. split; [|split].
    + intros b bf ->. exists b, bf. split; [done | apply Qle_refl].
    + by intros c ?%elem_of_nil.
    + intros sol f ->. by left.
  - destruct (_generate_initial_solution ds years t) as [solution t1] eqn:E.
    destruct (_calculate_fitness ds solution scenario) as [fitness|] eqn:Ef;
      simpl; [|done].
    intros (Hbest & Hcand & Hsel)%IH. split; [|split].
    + intros b bf ->.
      destruct (Qltb bf fitness) eqn:Eq.
      * destruct (Hbest _ _ eq_refl) as (sol & f & -> & Hle).
        exists sol, f. split; [done|]. apply Qltb_true in Eq. lra.
      * destruct (Hbest _ _ eq_refl) as (sol & f & -> & Hle). eauto.
    + intros c [->|Hin]%elem_of_cons; [|by apply Hcand].
      destruct best as [[b bf]|].
      * destruct (Qltb bf fitness) eqn:Eq.
        -- destruct (Hbest _ _ eq_refl) as (sol & f & -> & Hle). eauto 6.
        -- destruct (Hbest _ _ eq_refl) as (sol & f & -> & Hle).
           apply Qltb_false in Eq. exists fitness, sol, f.
           split; [done|]. split; [done | lra].
      * destruct (Hbest _ _ eq_refl) as (sol & f & -> & Hle). eauto 6.
    + intros sol f Hr. destruct (Hsel _ _ Hr) as [Hb | [Hin Hf]].
      * destruct best as [[b bf]|].
        -- destruct (Qltb bf fitness); [|by left].
           injection Hb as <- <-. right. split; [left | done].
        -- injection Hb as <- <-. right. split; [left | done].
      * right. split; [by right | done].
Qed.

(** X14: the ten-candidate loop of [_simple_optimize] scores every
    candidate and hands on one of them whose fitness no other candidate
    exceeds. *)
Theorem multi_start_keeps_a_best (ds : dataset) (scenario : Z) (years : nat)
    (t t' : tape) (r : option (plan * Q)) :
  multi_start ds scenario years 10 None t = Some (r, t') →
  ∃ sol f,
    r = Some (sol, f) ∧ sol ∈ candidates ds years 10 t ∧
    _calculate_fitness ds sol scenario = Some f ∧
    ∀ c, c ∈ candidates ds years 10 t →
      ∃ fc, _calculate_fitness ds c scenario = Some fc ∧ (fc <= f)%Q.
Proof.
  intros (_ & Hcand & Hsel)%multi_start_spec.
  assert (∃ c, c ∈ candidates ds years 10 t) as [c0 Hc0].
  { simpl. destruct (_generate_initial_solution ds years t) as [s0 t0].
    exists s0. left. }
  destruct (Hcand _ Hc0) as (fc0 & sol & f & _ & -> & _).
  exists sol, f. split; [done|].
  destruct (Hsel _ _ eq_refl) as [? | [Hin Hf]]; [done|].
  split; [done|]. split; [done|].
  intros c Hc. destruct (Hcand _ Hc) as (fc & sol' & f' & Hfc & [= <- <-] & Hle).
  eauto.
Qed.

(** ** The optimizer end to end *)

Lemma simple_optimize_cases ds scenario years t h' out :
  _simple_optimize ds scenario years t = Some (h', out) →
  ∃ t0 t1,
    local_search 100 ds
      (store_plan (_generate_initial_solution ds years t0).1).1
      (store_plan (_generate_initial_solution ds years t0).1).2 scenario t1
    = Some (h', out).
Proof.
  unfold _simple_optimize, _simple_local_search.
  destruct (multi_start ds scenario years 10 None t) as [[r t1]|] eqn:E; simpl; [|done].
  apply multi_start_spec in E as (_ & _ & Hsel).
  destruct r as [[sol f]|]; [|done].
  destruct (Hsel _ _ eq_refl) as [? | [Hin _]]; [done|].
  apply candidates_generated in Hin as [t0 ->]. eauto.
Qed.

Lemma sourced_regenerate ds land_name info ym year t :
  dict_get land_name (land_info ds) = Some info →
  plot_sourced ds (land_name, ym) →
  plot_sourced ds
    (land_name,
     dict_set year (regenerate (crop_info ds) (l_type info) (l_area info) t).1 ym).
Proof.
  intros Hi (info' & Hi' & Hall). simpl in *. exists info. split; [done|].
  assert (info' = info) as -> by congruence. simpl.
  apply dict_set_Forall; [|done]. apply regenerate_sourced.
Qed.

(** X15: every plan [optimize] returns satisfies the structural invariant,
    takes each crop from the candidate list of its land type and season,
    and has, for each plot, exactly the years [0 .. years-1]; over a land
    table with distinct plot names its plots are the table's plots in
    order. *)
Theorem optimize_result_well_formed (ds : dataset) (scenario : Z) (years : nat)
    (t : tape) (sol : plan) :
  optimize ds scenario years t = Some sol →
  Forall (plot_structural ds) sol ∧ Forall (plot_sourced ds) sol ∧
  plan_shape years sol ∧
  (NoDup (dict_keys (land_info ds)) → sol.*1 = dict_keys (land_info ds)).
Proof.
  unfold optimize.
  destruct (_simple_optimize ds scenario years t) as [[h' out]|] eqn:E; simpl; [|done].
  destruct (deref h' out) as [solution|] eqn:Ed; simpl; [|done].
  destruct (validate_rotation solution (crop_info ds) years); simpl; [|done].
  intros [= <-].
  apply simple_optimize_cases in E as (t0 & t1 & Hrun).
  set (start := (_generate_initial_solution ds years t0).1) in *.
  apply (local_search_ok ds scenario
           (λ l ym, plot_structural ds (l, ym) ∧ plot_sourced ds (l, ym) ∧
                    ym.*1 = seq 0 years)) in Hrun
    as [-> Hok].
  - apply store_ok_deref in Hok as (sol' & Hd & Hk & Hf).
    assert (sol' = solution) as -> by congruence.
    split; [|split; [|split]].
    + eapply Forall_impl; [exact Hf|]. by intros [l ym] (? & _ & _).
    + eapply Forall_impl; [exact Hf|]. by intros [l ym] (_ & ? & _).
    + eapply Forall_impl; [exact Hf|]. by intros [l ym] (_ & _ & ?).
    + intros Hnd. rewrite Hk. unfold store_plan. simpl.
      rewrite fst_zip by (by rewrite length_seq, length_fmap).
      unfold start, _generate_initial_solution.
      rewrite gen_lands_plots; [done | done |].
      intros l Hl. by apply dict_get_key.
  - intros land_name info ym year t' Hi (HP & Hsrc & Hk) Hy. split; [|split].
    + by apply structural_regenerate.
    + by apply sourced_regenerate.
    + by apply shape_regenerate.
  - apply store_plan_ok. apply Forall_forall. intros [l ym] Hin. simpl.
    split; [|split].
    + pose proof (gen_lands_structural ds years (dict_keys (land_info ds)) [] t0
                    (Forall_nil_2 _)) as Hs.
      rewrite Forall_forall in Hs. by apply Hs.
    + pose proof (gen_lands_sourced ds years (dict_keys (land_info ds)) [] t0
                    (Forall_nil_2 _)) as Hs.
      rewrite Forall_forall in Hs. by apply Hs.
    + pose proof (gen_lands_keys ds years (dict_keys (land_info ds)) [] t0
                    (Forall_nil_2 _)) as Hs.
      rewrite Forall_forall in Hs. by apply (Hs (l, ym)).
Qed.

(** ** Degenerate inputs *)

Lemma sample_head {A} (l : list A) k t :
  l ≠ [] → (0 < k)%nat →
  ∃ x rest, (sample l k t).1 = x :: rest ∧ x ∈ l.
Proof.
  intros Hl Hk. destruct k as [|k]; [lia|]. simpl. unfold rand_bind, rand_ret.
  destruct (draw t) as [r t1].
  assert (r mod length l < length l)%nat as Hlt.
  { apply Nat.mod_upper_bound. destruct l; simpl; [done | lia]. }
  apply lookup_lt_is_Some in Hlt as [x Hx]. rewrite Hx.
  destruct (sample _ k t1) as [rest t2]. simpl.
  exists x, rest. split; [done|]. by eapply list_elem_of_lookup_2.
Qed.

Lemma try_land_no_years ds scenario land_name st :
  store_ok (λ _ ym, length ym = 0%nat) (ss_heap st) (best_solution st) →
  try_land ds scenario land_name st = None.
Proof.
  intros [_ Hall]. unfold try_land.
  destruct (dict_get land_name (best_solution st)) as [a|] eqn:Ea; simpl; [|done].
  apply dict_get_elem in Ea. rewrite Forall_forall in Hall.
  destruct (Hall _ Ea) as (ym & Hh & Hlen). simpl in Hh. rewrite Hh. simpl.
  by rewrite Hlen.
Qed.

Lemma local_search_no_years cap ds h p scenario t :
  p ≠ [] → store_ok (λ _ ym, length ym = 0%nat) h p →
  local_search (S cap) ds h p scenario t = None.
Proof.
  intros Hp Hok. unfold local_search, shallow_copy.
  destruct (deref h p) as [start|]; simpl; [|done].
  destruct (_calculate_fitness ds start scenario) as [fit|]; simpl; [|done].
  destruct (sample_head (dict_keys p) (min 5 (length p)) t) as (x & rest & Hs & _).
  - unfold dict_keys. by destruct p.
  - destruct p; simpl; [done | lia].
  - destruct (sample _ _ t) as [lands t1]. simpl in Hs. subst lands.
    simpl. rewrite try_land_no_years; [done | exact Hok].
Qed.

Lemma simple_optimize_zero_years (ds : dataset) (scenario : Z) (t : tape) :
  _simple_optimize ds scenario 0 t = None.
Proof.
  destruct (_simple_optimize ds scenario 0 t) as [[h' out]|] eqn:E; [|done].
  exfalso. apply simple_optimize_cases in E as (t0 & t1 & Hrun).
  set (start := (_generate_initial_solution ds 0 t0).1) in *.
  destruct start as [|p0 start'] eqn:Es.
  - vm_compute in Hrun. done.
  - rewrite local_search_no_years in Hrun; [done | done |].
    apply store_plan_ok. rewrite <- Es.
    pose proof (gen_lands_keys ds 0 (dict_keys (land_info ds)) [] t0 (Forall_nil_2 _))
      as Hs.
    eapply Forall_impl; [exact Hs|]. intros [l ym] Hk. simpl in *.
    by rewrite <- (length_fmap fst), Hk.
Qed.

Lemma simple_optimize_no_plots (ds : dataset) (scenario : Z) (years : nat)
    (t : tape) :
  land_info ds = [] → _simple_optimize ds scenario years t = None.
Proof.
  intros Hl. unfold _simple_optimize.
  assert (∀ n best, multi_start ds scenario years (S n) best t = None) as ->; [|done].
  intros n best. simpl. unfold _generate_initial_solution. rewrite Hl. reflexivity.
Qed.


(** X16: with a horizon of zero years [optimize] never returns a plan:
    either no plot exists and scoring fails, or the first trial of the
    local search draws a year from an empty range. *)
Theorem optimize_zero_years (ds : dataset) (scenario : Z) (t : tape) :
  _simple_optimize ds scenario 0 t = None ∧ optimize ds scenario 0 t = None.
Proof.
  split; [apply simple_optimize_zero_years|].
  unfold optimize. by rewrite simple_optimize_zero_years.
Qed.

(** X17: over an empty land table [optimize] fails while scoring its first
    candidate, whatever the horizon. *)
Theorem optimize_no_plots (ds : dataset) (scenario : Z) (years : nat) (t : tape) :
  land_info ds = [] →
  _simple_optimize ds scenario years t = None ∧ optimize ds scenario years t = None.
Proof.
  intros Hl. split; [by apply simple_optimize_no_plots|].
  unfold optimize. by rewrite simple_optimize_no_plots.
Qed.

(** ** Dictionary reads after writes *)

Lemma dict_get_set_eq {K V} `{EqDecision K} (k : K) (v : V) d :
  dict_get k (dict_set k v d) = Some v.
Proof.
  induction d as [|[k' v'] d IH]; simpl.
  - by rewrite decide_True.
  - case_decide; simpl; [by rewrite decide_True | by rewrite decide_False].
Qed.

Lemma dict_get_set_ne {K V} `{EqDecision K} (k k' : K) (v : V) d :
  k ≠ k' → dict_get k' (dict_set k v d) = dict_get k' d.
Proof.
  intros Hne. induction d as [|[k0 v0] d IH]; simpl.
  - by rewrite decide_False.
  - case_decide; simplify_eq/=.
    + by rewrite !decide_False.
    + case_decide; [done | apply IH].
Qed.

(** ** Expected sales *)

Lemma extend_sales_app entry ys zs :
  extend_sales (extend_sales entry ys) zs = extend_sales entry (ys ++ zs).
Proof.
  destruct entry as [v|]; simpl.
  - by rewrite foldl_app.
  - destruct ys as [|y ys]; simpl; [done|]. by rewrite foldl_app.
Qed.

Lemma record_sale_spec li si land_name row expected expected' c :
  record_sale li si land_name row expected = Some expected' →
  dict_get c expected' =
  extend_sales (dict_get c expected)
    (omap (λ row, if decide (p_crop_id row = c) then row_yield li si land_name row
                  else None) [row]).
Proof.
  unfold record_sale, row_yield. simpl.
  destruct (dict_get land_name li) as [info|]; simpl; [|done].
  destruct (dict_get (p_crop_id row, l_type info, p_season row) si) as [st|]; simpl.
  - destruct (decide (p_crop_id row = c)) as [<-|Hne].
    + destruct (dict_get (p_crop_id row) expected) as [sofar|] eqn:E;
        intros [= <-]; by rewrite dict_get_set_eq.
    + destruct (dict_get (p_crop_id row) expected) as [sofar|] eqn:E;
        intros [= <-]; rewrite dict_get_set_ne by done;
        by destruct (dict_get c expected).
  - intros [= <-]. case_decide; by destruct (dict_get c expected).
Qed.

Lemma record_sales_spec li si land_name rows expected expected' c :
  record_sales li si land_name rows expected = Some expected' →
  dict_get c expected' =
  extend_sales (dict_get c expected)
    (omap (λ row, if decide (p_crop_id row = c) then row_yield li si land_name row
                  else None) rows).
Proof.
  revert expected. induction rows as [|row rows IH]; intros expected; simpl.
  - intros [= <-]. by destruct (dict_get c expected).
  - destruct (record_sale li si land_name row expected) as [e1|] eqn:E; simpl; [|done].
    intros Hrest. rewrite (IH _ Hrest), (record_sale_spec _ _ _ _ _ _ c E).
    rewrite extend_sales_app. f_equal. simpl.
    by destruct (decide (p_crop_id row = c)); [destruct (row_yield li si land_name row)|].
Qed.

Lemma expected_sales_from_spec li si planting_2023 expected expected' c :
  expected_sales_from li si planting_2023 expected = Some expected' →
  dict_get c expected' =
  extend_sales (dict_get c expected) (crop_yields li si planting_2023 c).
Proof.
  revert expected. induction planting_2023 as [|[land_name rows] later IH];
    intros expected; simpl.
  - intros [= <-]. by destruct (dict_get c expected).
  - destruct (record_sales li si land_name rows expected) as [e1|] eqn:E; simpl; [|done].
    intros Hrest. rewrite (IH _ Hrest), (record_sales_spec _ _ _ _ _ _ c E).
    by rewrite extend_sales_app.
Qed.

(** X18: the expected sales of a crop are the sum, in sheet order, of
    yield-per-area times planted area over its 2023 rows that have
    statistics for the plot's land type and the row's season; a crop
    without such a row has no entry. *)
Theorem expected_sales_are_summed_yields (li : list (string * land))
    (si : list ((nat * land_type * season) * stats))
    (planting_2023 : list (string * list planting)) (expected : list (nat * Q))
    (c : nat) :
  expected_sales_of li si planting_2023 = Some expected →
  dict_get c expected = extend_sales None (crop_yields li si planting_2023 c).
Proof. intros H. by rewrite (expected_sales_from_spec _ _ _ _ _ c H). Qed.

(** ** Plot divisions *)






(** ** Classification *)

(** X21: [bean_crops] and [non_bean_crops] together list every crop of the
    table exactly once. *)
Theorem bean_crops_partition (ds : dataset) :
  bean_crops ds ++ non_bean_crops ds ≡ₚ dict_keys (crop_info ds).
Proof.
  unfold bean_crops, non_bean_crops, dict_keys.
  rewrite <- fmap_app. apply fmap_Permutation.
  apply (filter_app_complement (λ p : nat * crop, contains legume_marker (c_type p.2) = true)).
Qed.

(** ** When the rotation validator answers *)

Lemma rotation_scan_verdict ci cells :
  Forall (λ cl, is_Some (dict_get (crop_id cl) ci)) cells →
  ∃ b, rotation_scan ci cells = Some b ∧
       (b = true ↔ ∃ c info, c ∈ cells ∧ dict_get (crop_id c) ci = Some info ∧
                             validator_bean info = true).
Proof.
  induction 1 as [|c cells [info Hi] _ (b & Hb & IH)]; simpl.
  - exists false. split; [done|]. split; [done|].
    by intros (c & info & ?%elem_of_nil & _).
  - rewrite Hi. simpl. destruct (validator_bean info) eqn:Hv.
    + exists true. split; [done|]. split; [|done]. intros _.
      exists c, info. split; [left | done].
    + exists b. split; [done|]. rewrite IH. split.
      * intros (c' & info' & Hin & Hi' & Hv'). exists c', info'.
        split; [by right | done].
      * intros (c' & info' & [->|Hin]%elem_of_cons & Hi' & Hv'); [congruence|].
        eauto.
Qed.

(** X22: on a plan whose crop ids are all in the crop table
    [validate_rotation] does not raise, and it answers [True] exactly when
    every plot has, within the first [years] years, a cell whose crop is
    tagged with one of the two legume tags. *)
Theorem validate_rotation_verdict (sol : plan) (ci : list (nat * crop)) (years : nat) :
  crops_known ci sol →
  ∃ b, validate_rotation sol ci years = Some b ∧
       (b = true ↔ Forall (λ p, has_tagged_legume ci years p.2) sol).
Proof.
  induction sol as [|[l ym] sol IH]; intros Hk; simpl.
  - exists true. split; [done|]. split; [constructor | done].
  - destruct (rotation_scan_verdict ci (cells_in_order ym years)) as (b0 & -> & Hb0).
    { eapply cells_known; [exact Hk | left]. }
    destruct IH as (b & Hb & Hiff).
    { intros l1 ym1 year s cl Hin Hc. eapply Hk; [right; exact Hin | exact Hc]. }
    simpl. destruct b0.
    + exists b. split; [done|]. rewrite Hiff, Forall_cons.
      split; [intros; split; [by apply Hb0 | done] | by intros [_ ?]].
    + exists false. split; [done|]. split; [done|].
      intros [Hp _]%Forall_cons. apply Hb0 in Hp. done.
Qed.

(** ** When expected sales can be derived *)

Lemma record_sales_total li si land_name rows expected :
  is_Some (record_sales li si land_name rows expected) ↔
  rows = [] ∨ is_Some (dict_get land_name li).
Proof.
  revert expected. induction rows as [|row rows IH]; intros expected; simpl.
  - split; [by left | by eexists].
  - unfold record_sale at 1.
    destruct (dict_get land_name li) as [info|] eqn:E; simpl.
    + split; [by right|]. intros _.
      destruct (dict_get (p_crop_id row, l_type info, p_season row) si) as [st|];
        [destruct (dict_get (p_crop_id row) expected)|]; simpl;
        apply IH; right; eauto.
    + split; [by intros [? ?] | intros [? | [? ?]]; done].
Qed.

(** X23: deriving the expected sales fails exactly when some plot of the
    planting sheet that has at least one row is missing from the land
    table. *)
Theorem expected_sales_defined (li : list (string * land))
    (si : list ((nat * land_type * season) * stats))
    (planting_2023 : list (string * list planting)) :
  is_Some (expected_sales_of li si planting_2023) ↔
  Forall (λ p, p.2 = [] ∨ is_Some (dict_get p.1 li)) planting_2023.
Proof.
  unfold expected_sales_of. generalize (@nil (nat * Q)) as expected.
  induction planting_2023 as [|[land_name rows] later IH]; intros expected; simpl.
  - split; [constructor | by eexists].
  - rewrite Forall_cons. simpl.
    destruct (record_sales li si land_name rows expected) as [e1|] eqn:E; simpl.
    + rewrite IH. split; [|by intros [_ ?]]. intros Hl. split; [|done].
      apply (record_sales_total li si land_name rows expected). by rewrite E.
    + split; [by intros [? ?]|]. intros [Hr _].
      apply (record_sales_total li si land_name rows expected) in Hr.
      rewrite E in Hr. by destruct Hr.
Qed.

(** ** Instances of the further properties *)

Lemma wheat_plan_structural : Forall (plot_structural two_grain_dataset) wheat_plan.
Proof.
  constructor; [|constructor].
  exists {| l_type := FlatDry; l_area := 10 |}. split; [reflexivity|].
  constructor; [|constructor]. split; [by split|].
  intros [] cl; simpl; intros [= <-]; reflexivity.
Defined.

Lemma wheat_plan_crops_known : crops_known (crop_info two_grain_dataset) wheat_plan.
Proof.
  intros l ym year s cl Hl Hc.
  apply list_elem_of_singleton in Hl as [= -> ->].
  unfold cell_at in Hc. destruct year as [|year]; [|done].
  destruct s; simpl in Hc; simplify_eq. vm_compute. eauto.
Defined.

Lemma scenario_no_excess :
  no_excess (scenario_dataset "B1" 1 "soy") (scenario_plan "B1" 1 "soy").
Proof.
  intros land_name ym info s c st expected Hin Hinfo Hc Hst He.
  apply list_elem_of_singleton in Hin as [= -> ->].
  vm_compute in Hinfo. injection Hinfo as <-.
  change (plot_cells _) with
    [(Single, {| crop_id := 1; crop_name := "soy"; area := 10 |})] in Hc.
  apply list_elem_of_singleton in Hc as [= -> ->].
  vm_compute in Hst, He. injection Hst as <-. injection He as <-.
  unfold Qle. simpl. lia.
Defined.

Lemma fitness_le_profit_witness :
  ∃ v, _calculate_fitness (scenario_dataset "B1" 1 "soy")
         (scenario_plan "B1" 1 "soy") shortage = Some v ∧
  ∃ profit penalty,
    total_profit (scenario_dataset "B1" 1 "soy") shortage
      (scenario_plan "B1" 1 "soy") = Some profit ∧
    _calculate_constraint_penalty (scenario_dataset "B1" 1 "soy")
      (scenario_plan "B1" 1 "soy") = Some penalty ∧
    (0 <= penalty)%Q ∧ (v <= profit)%Q.
Proof.
  destruct (_calculate_fitness (scenario_dataset "B1" 1 "soy")
              (scenario_plan "B1" 1 "soy") shortage) as [v|] eqn:E;
    [|vm_compute in E; discriminate].
  exists v. split; [reflexivity|]. exact (fitness_le_profit _ _ _ _ E).
Defined.

Lemma fitness_scenario_free_witness :
  no_excess (scenario_dataset "B1" 1 "soy") (scenario_plan "B1" 1 "soy") ∧
  ∃ v1 v2,
    _calculate_fitness (scenario_dataset "B1" 1 "soy")
      (scenario_plan "B1" 1 "soy") shortage = Some v1 ∧
    _calculate_fitness (scenario_dataset "B1" 1 "soy")
      (scenario_plan "B1" 1 "soy") markdown = Some v2 ∧ (v1 == v2)%Q.
Proof.
  split; [exact scenario_no_excess|].
  destruct (_calculate_fitness (scenario_dataset "B1" 1 "soy")
              (scenario_plan "B1" 1 "soy") shortage) as [v1|] eqn:E1;
    [|vm_compute in E1; discriminate].
  destruct (_calculate_fitness (scenario_dataset "B1" 1 "soy")
              (scenario_plan "B1" 1 "soy") markdown) as [v2|] eqn:E2;
    [|vm_compute in E2; discriminate].
  exists v1, v2. split; [reflexivity|]. split; [reflexivity|].
  exact (fitness_scenario_free_without_excess _ _ _ _ _ _ scenario_no_excess E1 E2).
Defined.

Lemma fitness_scenario_not_shortage_witness :
  (3 ≠ 1) ∧
  _calculate_fitness two_grain_dataset wheat_plan 3
  = _calculate_fitness two_grain_dataset wheat_plan markdown.
Proof.
  assert (H : 3 ≠ 1) by lia.
  split; [exact H | exact (fitness_scenario_not_shortage _ _ 3 H)].
Defined.

Lemma paired_plan_shape : plan_shape 1 paired_plan.
Proof. repeat constructor. Defined.

Lemma validate_min_area_witness :
  plan_shape 1 paired_plan ∧
  (validate_min_area paired_plan (1 # 2) = true ↔
   (min_area_penalty paired_plan == 0)%Q).
Proof.
  split; [exact paired_plan_shape|].
  exact (validate_min_area_iff_no_charge 1 paired_plan paired_plan_shape).
Defined.

Lemma validate_rotation_no_charge_witness :
  let ds := scenario_dataset "B1" 1 "soy" in
  let sol := scenario_plan "B1" 1 "soy" in
  uniform_horizon 1 sol ∧ validate_rotation sol (crop_info ds) 1 = Some true ∧
  rotation_penalty ds sol = 0.
Proof.
  intros ds sol.
  assert (Hu : uniform_horizon 1 sol) by repeat constructor.
  assert (Hv : validate_rotation sol (crop_info ds) 1 = Some true)
    by (vm_compute; reflexivity).
  split; [exact Hu|]. split; [exact Hv|].
  exact (validate_rotation_implies_no_charge ds sol 1 Hu Hv).
Defined.

Lemma two_grain_plots_distinct : NoDup (dict_keys (land_info two_grain_dataset)).
Proof. repeat constructor. by intros ?%elem_of_nil. Defined.

Lemma generated_plan_shape_witness :
  NoDup (dict_keys (land_info two_grain_dataset)) ∧
  (_generate_initial_solution two_grain_dataset 2 [1%nat]).1.*1 = ["A1"%string] ∧
  plan_shape 2 (_generate_initial_solution two_grain_dataset 2 [1%nat]).1.
Proof.
  split; [exact two_grain_plots_distinct|].
  exact (generated_plan_shape two_grain_dataset 2 [1%nat] two_grain_plots_distinct).
Defined.

Lemma local_search_in_place_witness :
  ∃ h' out,
    local_search 100 two_grain_dataset (store_plan wheat_plan).1
      (store_plan wheat_plan).2 shortage [] = Some (h', out) ∧
    out = (store_plan wheat_plan).2 ∧ length h' = length (store_plan wheat_plan).1.
Proof.
  destruct (local_search 100 two_grain_dataset (store_plan wheat_plan).1
              (store_plan wheat_plan).2 shortage []) as [[h' out]|] eqn:E;
    [|vm_compute in E; discriminate].
  exists h', out. split; [reflexivity|].
  exact (local_search_in_place _ _ _ _ _ _ _ _ E).
Defined.

Lemma search_best_fitness_witness :
  ∃ st', search_loop two_grain_dataset shortage 100 wheat_start = Some st' ∧
         (best_fitness wheat_start <= best_fitness st')%Q.
Proof.
  destruct (search_loop two_grain_dataset shortage 100 wheat_start) as [st'|] eqn:E;
    [|vm_compute in E; discriminate].
  exists st'. split; [reflexivity|].
  exact (search_best_fitness_monotone _ _ _ _ _ E).
Defined.

Lemma local_search_structural_witness :
  Forall (plot_structural two_grain_dataset) wheat_plan ∧
  ∃ h' out,
    local_search 100 two_grain_dataset (store_plan wheat_plan).1
      (store_plan wheat_plan).2 shortage [0; 0; 1]%nat = Some (h', out) ∧
    ∃ sol', deref h' out = Some sol' ∧ Forall (plot_structural two_grain_dataset) sol'.
Proof.
  split; [exact wheat_plan_structural|].
  destruct (local_search 100 two_grain_dataset (store_plan wheat_plan).1
              (store_plan wheat_plan).2 shortage [0; 0; 1]%nat) as [[h' out]|] eqn:E;
    [|vm_compute in E; discriminate].
  exists h', out. split; [reflexivity|].
  exact (local_search_structural _ _ _ _ _ _ _ wheat_plan_structural E).
Defined.

Lemma wheat_plan_shape : plan_shape 1 wheat_plan.
Proof. repeat constructor. Defined.

Lemma local_search_shape_witness :
  plan_shape 1 wheat_plan ∧
  ∃ h' out,
    local_search 100 two_grain_dataset (store_plan wheat_plan).1
      (store_plan wheat_plan).2 shortage [0; 0; 1]%nat = Some (h', out) ∧
    ∃ sol', deref h' out = Some sol' ∧ sol'.*1 = wheat_plan.*1 ∧ plan_shape 1 sol'.
Proof.
  split; [exact wheat_plan_shape|].
  destruct (local_search 100 two_grain_dataset (store_plan wheat_plan).1
              (store_plan wheat_plan).2 shortage [0; 0; 1]%nat) as [[h' out]|] eqn:E;
    [|vm_compute in E; discriminate].
  exists h', out. split; [reflexivity|].
  exact (local_search_shape _ _ _ _ _ _ _ _ wheat_plan_shape E).
Defined.

Lemma multi_start_witness :
  ∃ r t',
    multi_start two_grain_dataset shortage 1 10 None [1%nat] = Some (r, t') ∧
    ∃ sol f,
      r = Some (sol, f) ∧ sol ∈ candidates two_grain_dataset 1 10 [1%nat] ∧
      _calculate_fitness two_grain_dataset sol shortage = Some f ∧
      ∀ c, c ∈ candidates two_grain_dataset 1 10 [1%nat] →
        ∃ fc, _calculate_fitness two_grain_dataset c shortage = Some fc ∧ (fc <= f)%Q.
Proof.
  destruct (multi_start two_grain_dataset shortage 1 10 None [1%nat])
    as [[r t']|] eqn:E; [|vm_compute in E; discriminate].
  exists r, t'. split; [reflexivity|].
  exact (multi_start_keeps_a_best _ _ _ _ _ _ E).
Defined.

Lemma optimize_witness :
  ∃ sol,
    optimize two_grain_dataset shortage 1 [] = Some sol ∧
    Forall (plot_structural two_grain_dataset) sol ∧
    Forall (plot_sourced two_grain_dataset) sol ∧
    plan_shape 1 sol ∧
    (NoDup (dict_keys (land_info two_grain_dataset)) →
     sol.*1 = dict_keys (land_info two_grain_dataset)).
Proof.
  destruct (optimize two_grain_dataset shortage 1 []) as [sol|] eqn:E;
    [|vm_compute in E; discriminate].
  exists sol. split; [reflexivity|].
  exact (optimize_result_well_formed _ _ _ _ _ E).
Defined.

Lemma optimize_no_plots_witness :
  land_info empty_dataset = [] ∧
  _simple_optimize empty_dataset shortage 7 [] = None ∧
  optimize empty_dataset shortage 7 [] = None.
Proof.
  split; [reflexivity|].
  exact (optimize_no_plots empty_dataset shortage 7 [] eq_refl).
Defined.

Lemma expected_sales_witness :
  ∃ expected,
    expected_sales_of (land_info two_grain_dataset) (stats_info two_grain_dataset)
      three_rows = Some expected ∧
    dict_get 1%nat expected
    = extend_sales None
        (crop_yields (land_info two_grain_dataset) (stats_info two_grain_dataset)
           three_rows 1).
Proof.
  destruct (expected_sales_of (land_info two_grain_dataset)
              (stats_info two_grain_dataset) three_rows) as [expected|] eqn:E;
    [|vm_compute in E; discriminate].
  exists expected. split; [reflexivity|].
  exact (expected_sales_are_summed_yields _ _ _ _ 1%nat E).
Defined.


Lemma validate_rotation_verdict_witness :
  crops_known (crop_info two_grain_dataset) wheat_plan ∧
  ∃ b, validate_rotation wheat_plan (crop_info two_grain_dataset) 1 = Some b ∧
       (b = true ↔
        Forall (λ p, has_tagged_legume (crop_info two_grain_dataset) 1 p.2) wheat_plan).
Proof.
  split; [exact wheat_plan_crops_known|].
  exact (validate_rotation_verdict wheat_plan (crop_info two_grain_dataset) 1
           wheat_plan_crops_known).
Defined.
